(** * bss-app: the ledger HTTP API over a document store

    Shallow embedding of the request handlers of [src/blockchain.js],
    [src/unnamed/part_000] (the variant with express-validator chains) and
    [src/unnamed/part_001] (whose [/transactions/send] and [/mine] handlers
    are, character for character, those of [blockchain.js]).

    Conventions of the model.
    - A JSON body field is [option]: [None] is a field that is absent
      ([undefined] after destructuring).  String fields carry [string],
      number fields carry [Z].  A number is an integer that a double holds:
      [<] and unary [-] and [+] are exact on doubles, while [$inc] adds as
      doubles add, rounding the sum to the nearest double ([double_add]).
      Fractions and sums beyond the largest double are outside the model.
    - A collection is the list of its documents in insertion order.
      [findOne] returns the first document that matches, [updateOne] changes
      the first document that matches, [insertOne] appends.
    - A handler is an [Async] program: the synchronous code between two
      [await]s is a pure function, every [await db....] is one store
      operation.  [run] executes a handler with nothing interleaved;
      [interleavings] enumerates the executions of two handlers whose store
      operations are interleaved at their [await]s.
    - [new Date()] is the handler's argument [now].
    - Handlers are modelled behind the API key middleware (the request
      carried the right key); the store never throws, so the [catch]
      branches (status 500) are not reachable in the model. *)

From Stdlib Require Import ZArith List String Bool Lia Permutation.
Import ListNotations.

Local Open Scope string_scope.
Local Open Scope list_scope.
Local Open Scope Z_scope.

(** ** Numbers *)

(** The magnitude of the double nearest to a non-negative integer: below
    [2 ^ 53] every integer is a double; from there on a double has 53
    significant bits, and a tie goes to the even significand. *)
Definition round_magnitude (m : Z) : Z :=
  if m <? 2 ^ 53 then m
  else
    let ulp := 2 ^ (Z.log2 m - 52) in
    let q := m / ulp in
    let r := m mod ulp in
    let q' := if 2 * r <? ulp then q
              else if ulp <? 2 * r then q + 1
              else if Z.even q then q else q + 1 in
    q' * ulp.

(** The double nearest to an integer. *)
Definition round_double (z : Z) : Z := Z.sgn z * round_magnitude (Z.abs z).

(** The sum of two doubles, as [+] and [$inc] compute it. *)
Definition double_add (x y : Z) : Z := round_double (x + y).

(** An integer that a double holds, as every number of a parsed body is. *)
Definition is_double (z : Z) : Prop := round_double z = z.

Arguments round_magnitude : simpl never.
Arguments round_double : simpl never.
Arguments double_add : simpl never.

(** ** Documents and collections *)

(** A document of the [users] collection. *)
Record User := mkUser {
  address : string;
  balance : Z;
  createdAt : Z
}.

(** A document of the [transactions] collection. *)
Record Transaction := mkTransaction {
  sender : string;
  receiver : string;
  amount : Z;
  timestamp : Z
}.

(** A document of the [blocks] collection. *)
Record Block := mkBlock {
  miner : string;
  reward : Z;
  minedAt : Z
}.

(** The database [bss_app]. *)
Record Db := mkDb {
  users : list User;
  transactions : list Transaction;
  blocks : list Block
}.

Definition emptyDb : Db := mkDb [] [] [].

(** [db.collection('users').findOne({ address })] *)
Fixpoint findOne (a : string) (us : list User) : option User :=
  match us with
  | [] => None
  | u :: rest => if String.eqb (address u) a then Some u else findOne a rest
  end.

(** [db.collection('users').updateOne({ address }, { $inc: { balance: delta } })]:
    the first matching document gets [delta] added, as doubles add; without
    a match nothing changes. *)
Fixpoint updateOne_inc (a : string) (delta : Z) (us : list User) : list User :=
  match us with
  | [] => []
  | u :: rest =>
      if String.eqb (address u) a
      then mkUser (address u) (double_add (balance u) delta) (createdAt u) :: rest
      else u :: updateOne_inc a delta rest
  end.

(** [db.collection('transactions').find({ $or: [{ sender: address }, { receiver: address }] }).toArray()] *)
Definition find_sender_or_receiver (a : string) (ts : list Transaction)
  : list Transaction :=
  filter (fun t => String.eqb (sender t) a || String.eqb (receiver t) a) ts.

(** ** Store operations and asynchronous handlers *)

(** One awaited call on the store, indexed by the type of what it resolves to. *)
Inductive Op : Type -> Type :=
| UsersFindOne (a : string) : Op (option User)
| UsersInsertOne (u : User) : Op unit
| UsersUpdateOneInc (a : string) (delta : Z) : Op unit
| TransactionsInsertOne (t : Transaction) : Op unit
| TransactionsFind (a : string) : Op (list Transaction)
| BlocksInsertOne (b : Block) : Op unit.

(** The effect of one store operation: each is atomic on the store. *)
Definition exec {R : Type} (op : Op R) (db : Db) : R * Db :=
  match op in Op T return T * Db with
  | UsersFindOne a => (findOne a (users db), db)
  | UsersInsertOne u =>
      (tt, mkDb (users db ++ [u]) (transactions db) (blocks db))
  | UsersUpdateOneInc a delta =>
      (tt, mkDb (updateOne_inc a delta (users db)) (transactions db) (blocks db))
  | TransactionsInsertOne t =>
      (tt, mkDb (users db) (transactions db ++ [t]) (blocks db))
  | TransactionsFind a => (find_sender_or_receiver a (transactions db), db)
  | BlocksInsertOne b =>
      (tt, mkDb (users db) (transactions db) (blocks db ++ [b]))
  end.

(** An [async] function body: it returns, or awaits a store operation and
    continues with what the operation resolved to. *)
Inductive Async (A : Type) : Type :=
| Return (a : A)
| Await (R : Type) (op : Op R) (k : R -> Async A).

Arguments Return {A} a.
Arguments Await {A R} op k.

Notation "x <- 'await' op ;; k" := (Await op (fun x => k))
  (at level 61, op at next level, right associativity, only parsing).
Notation "'await' op ;; k" := (Await op (fun _ => k))
  (at level 61, op at next level, right associativity, only parsing).

(** A handler that runs with no other handler interleaved. *)
Fixpoint run {A : Type} (p : Async A) (db : Db) : A * Db :=
  match p with
  | Return a => (a, db)
  | Await op k => let (r, db') := exec op db in run (k r) db'
  end.

(** All executions of two handlers running concurrently: at each step one
    of the two performs its next awaited store operation. *)
Fixpoint interleavings {A B : Type} (p : Async A)
  : Async B -> Db -> list (A * B * Db) :=
  fix against (q : Async B) (db : Db) : list (A * B * Db) :=
    match p, q with
    | Return a, _ => let (b, db') := run q db in [(a, b, db')]
    | Await _ _, Return b => let (a, db') := run p db in [(a, b, db')]
    | Await op k, Await op' k' =>
        (let (r, db') := exec op db in interleavings (k r) q db')
        ++ (let (r, db') := exec op' db in against (k' r) db')
    end.

(** ** Requests and responses *)

Record RegisterBody := mkRegisterBody {
  register_address : option string;
  register_initialBalance : option Z
}.

Record SendBody := mkSendBody {
  send_sender : option string;
  send_receiver : option string;
  send_amount : option Z
}.

Record MineBody := mkMineBody {
  mine_minerAddress : option string
}.

(** An entry of [errors.array()]: the field whose validator failed. *)
Record ValidationError := mkValidationError {
  param : string
}.

(** The JSON object a handler answers with; [CannotRoute] is the page
    express answers with when no route takes the request. *)
Inductive Payload : Type :=
| Message (message : string)
| MessageUser (message : string) (user : User)
| MessageTransaction (message : string) (transaction : Transaction)
| MessageBlock (message : string) (block : Block)
| BalanceOf (bal : Z)
| TransactionList (ts : list Transaction)
| Errors (errors : list ValidationError)
| CannotRoute.

Record Response := mkResponse {
  status : Z;
  payload : Payload
}.

(** [res.status(code).json(body)] and [res.json(body)]. *)
Definition status_json (code : Z) (body : Payload) : Response := mkResponse code body.
Definition json (body : Payload) : Response := mkResponse 200 body.

(** JavaScript truthiness of a string field: [Some s] when the field is
    present and not the empty string. *)
Definition truthy_string (v : option string) : option string :=
  match v with
  | Some s => if String.eqb s "" then None else Some s
  | None => None
  end.

(** JavaScript truthiness of a number field: [Some n] when the field is
    present and not [0]. *)
Definition truthy_number (v : option Z) : option Z :=
  match v with
  | Some n => if n =? 0 then None else Some n
  | None => None
  end.

(** [v || 0] on a number field. *)
Definition or_zero (v : option Z) : Z :=
  match truthy_number v with
  | Some n => n
  | None => 0
  end.

(** ** The handlers of [blockchain.js] (and of [part_001]) *)

Module Blockchain.

(** [app.post('/users/register', ...)] *)
Definition register (body : RegisterBody) (now : Z) : Async Response :=
  match truthy_string (register_address body),
        truthy_number (register_initialBalance body) with
  | Some address, Some _ =>
      existingUser <- await (UsersFindOne address) ;;
      match existingUser with
      | Some _ => Return (status_json 400 (Message "User already exists"))
      | None =>
          let newUser :=
            mkUser address (or_zero (register_initialBalance body)) now in
          await (UsersInsertOne newUser) ;;
          Return (status_json 201
                    (MessageUser "User registered successfully" newUser))
      end
  | _, _ =>
      Return (status_json 400 (Message "Address and initial balance are required"))
  end.

(** [app.get('/balance/:address', ...)] *)
Definition getBalance (address : string) : Async Response :=
  user <- await (UsersFindOne address) ;;
  match user with
  | None => Return (status_json 404 (Message "User not found"))
  | Some user => Return (json (BalanceOf (balance user)))
  end.

(** [app.post('/transactions/send', ...)] *)
Definition send (body : SendBody) (now : Z) : Async Response :=
  match truthy_string (send_sender body),
        truthy_string (send_receiver body),
        truthy_number (send_amount body) with
  | Some sender, Some receiver, Some amount =>
      senderUser <- await (UsersFindOne sender) ;;
      receiverUser <- await (UsersFindOne receiver) ;;
      match senderUser, receiverUser with
      | Some senderUser, Some _ =>
          if balance senderUser <? amount
          then Return (status_json 400 (Message "Insufficient balance"))
          else
            await (UsersUpdateOneInc sender (- amount)) ;;
            await (UsersUpdateOneInc receiver amount) ;;
            let transaction := mkTransaction sender receiver amount now in
            await (TransactionsInsertOne transaction) ;;
            Return (json (MessageTransaction "Transaction successful" transaction))
      | _, _ =>
          Return (status_json 404 (Message "Sender or Receiver does not exist"))
      end
  | _, _, _ => Return (status_json 400 (Message "Invalid request body"))
  end.

(** [app.post('/mine', ...)] *)
Definition mine (body : MineBody) (now : Z) : Async Response :=
  match truthy_string (mine_minerAddress body) with
  | Some minerAddress =>
      miner <- await (UsersFindOne minerAddress) ;;
      match miner with
      | None => Return (status_json 404 (Message "Miner does not exist"))
      | Some _ =>
          let reward := 10 in
          await (UsersUpdateOneInc minerAddress reward) ;;
          let block := mkBlock minerAddress reward now in
          await (BlocksInsertOne block) ;;
          Return (json (MessageBlock "Block mined successfully" block))
      end
  | None => Return (status_json 400 (Message "Miner address is required"))
  end.

(** [app.get('/transactions/:address', ...)] *)
Definition getTransactions (address : string) : Async Response :=
  transactions <- await (TransactionsFind address) ;;
  if (List.length transactions =? 0)%nat
  then Return (status_json 404 (Message "No transactions found for this user"))
  else Return (json (TransactionList transactions)).

End Blockchain.

(** ** The handlers of [part_000], behind express-validator chains *)

Module Validated.

(** [isString()]: the field is present and a string. *)
Definition isString (v : option string) : bool :=
  match v with Some _ => true | None => false end.

(** [notEmpty()] on a string field: an absent field renders as the empty
    string. *)
Definition notEmpty (v : option string) : bool :=
  match v with Some s => negb (String.eqb s "") | None => false end.

(** [isNumeric()] on a number field tests the rendering of the number: an
    integer below [10 ^ 21] in magnitude renders as an optional sign and
    digits, which is numeric; from [10 ^ 21] on it renders with an exponent
    ([1e+21]), which is not; an absent field renders as the empty string,
    which is not. *)
Definition isNumeric (v : option Z) : bool :=
  match v with Some n => Z.abs n <? 10 ^ 21 | None => false end.

(** [notEmpty()] on a number field. *)
Definition notEmpty_number (v : option Z) : bool :=
  match v with Some _ => true | None => false end.

(** One validator of a chain: it records an error for its field when it
    fails. *)
Definition check (field : string) (ok : bool) : list ValidationError :=
  if ok then [] else [mkValidationError field].

(** [.optional()]: the chain is skipped when the field is absent. *)
Definition optional {V : Type} (v : option V) (chain : list ValidationError)
  : list ValidationError :=
  match v with None => [] | Some _ => chain end.

Definition isEmpty (errors : list ValidationError) : bool :=
  match errors with [] => true | _ :: _ => false end.

(** The chains of [/users/register]. *)
Definition validate_register (body : RegisterBody) : list ValidationError :=
  check "address" (isString (register_address body))
  ++ check "address" (notEmpty (register_address body))
  ++ optional (register_initialBalance body)
       (check "initialBalance" (isNumeric (register_initialBalance body))).

(** The chains of [/transactions/send]. *)
Definition validate_send (body : SendBody) : list ValidationError :=
  check "sender" (isString (send_sender body))
  ++ check "sender" (notEmpty (send_sender body))
  ++ check "receiver" (isString (send_receiver body))
  ++ check "receiver" (notEmpty (send_receiver body))
  ++ check "amount" (isNumeric (send_amount body))
  ++ check "amount" (notEmpty_number (send_amount body)).

(** The chain of [/mine]. *)
Definition validate_mine (body : MineBody) : list ValidationError :=
  check "minerAddress" (isString (mine_minerAddress body))
  ++ check "minerAddress" (notEmpty (mine_minerAddress body)).

(** [app.post('/users/register', [...], ...)].  After the chains passed,
    [address] is a string: the last branch is never taken. *)
Definition register (body : RegisterBody) (now : Z) : Async Response :=
  let errors := validate_register body in
  if negb (isEmpty errors) then Return (status_json 400 (Errors errors))
  else
    match register_address body with
    | Some address =>
        existingUser <- await (UsersFindOne address) ;;
        match existingUser with
        | Some _ => Return (status_json 400 (Message "User already exists"))
        | None =>
            let newUser :=
              mkUser address (or_zero (register_initialBalance body)) now in
            await (UsersInsertOne newUser) ;;
            Return (status_json 201
                      (MessageUser "User registered successfully" newUser))
        end
    | None => Return (status_json 400 (Errors errors))
    end.

(** [app.get('/balance/:address', ...)] *)
Definition getBalance (address : string) : Async Response :=
  Blockchain.getBalance address.

(** [app.post('/transactions/send', [...], ...)].  After the chains passed,
    the three fields are present: the last branch is never taken. *)
Definition send (body : SendBody) (now : Z) : Async Response :=
  let errors := validate_send body in
  if negb (isEmpty errors) then Return (status_json 400 (Errors errors))
  else
    match send_sender body, send_receiver body, send_amount body with
    | Some sender, Some receiver, Some amount =>
        senderUser <- await (UsersFindOne sender) ;;
        receiverUser <- await (UsersFindOne receiver) ;;
        match senderUser, receiverUser with
        | Some senderUser, Some _ =>
            if balance senderUser <? amount
            then Return (status_json 400 (Message "Insufficient balance"))
            else
              await (UsersUpdateOneInc sender (- amount)) ;;
              await (UsersUpdateOneInc receiver amount) ;;
              let transaction := mkTransaction sender receiver amount now in
              await (TransactionsInsertOne transaction) ;;
              Return (json (MessageTransaction "Transaction successful" transaction))
        | _, _ =>
            Return (status_json 404 (Message "Sender or Receiver does not exist"))
        end
    | _, _, _ => Return (status_json 400 (Errors errors))
    end.

(** [app.post('/mine', [...], ...)] *)
Definition mine (body : MineBody) (now : Z) : Async Response :=
  let errors := validate_mine body in
  if negb (isEmpty errors) then Return (status_json 400 (Errors errors))
  else
    match mine_minerAddress body with
    | Some minerAddress =>
        miner <- await (UsersFindOne minerAddress) ;;
        match miner with
        | None => Return (status_json 404 (Message "Miner does not exist"))
        | Some _ =>
            let reward := 10 in
            await (UsersUpdateOneInc minerAddress reward) ;;
            let block := mkBlock minerAddress reward now in
            await (BlocksInsertOne block) ;;
            Return (json (MessageBlock "Block mined successfully" block))
        end
    | None => Return (status_json 400 (Errors errors))
    end.

(** [app.get('/transactions/user/:address', ...)] *)
Definition getTransactions (address : string) : Async Response :=
  Blockchain.getTransactions address.

End Validated.

(** ** The three source files *)

Inductive Source := blockchain_js | part_000 | part_001.

(** [POST /transactions/send] as each file defines it. *)
Definition send (src : Source) : SendBody -> Z -> Async Response :=
  match src with
  | blockchain_js | part_001 => Blockchain.send
  | part_000 => Validated.send
  end.

(** [POST /mine] as each file defines it. *)
Definition mine (src : Source) : MineBody -> Z -> Async Response :=
  match src with
  | blockchain_js | part_001 => Blockchain.mine
  | part_000 => Validated.mine
  end.

Inductive Request :=
| PostUsersRegister (body : RegisterBody)
| GetBalance (address : string)
| PostTransactionsSend (body : SendBody)
| PostMine (body : MineBody)
| GetTransactions (address : string).

(** The handler a file registers for a request; [part_001] registers none
    for registration and for the transactions of an address. *)
Definition route (src : Source) (req : Request) (now : Z)
  : option (Async Response) :=
  match req, src with
  | PostUsersRegister body, blockchain_js => Some (Blockchain.register body now)
  | PostUsersRegister body, part_000 => Some (Validated.register body now)
  | PostUsersRegister _, part_001 => None
  | GetBalance a, part_000 => Some (Validated.getBalance a)
  | GetBalance a, _ => Some (Blockchain.getBalance a)
  | PostTransactionsSend body, _ => Some (send src body now)
  | PostMine body, _ => Some (mine src body now)
  | GetTransactions a, blockchain_js => Some (Blockchain.getTransactions a)
  | GetTransactions a, part_000 => Some (Validated.getTransactions a)
  | GetTransactions _, part_001 => None
  end.




(** ** Notions of the specification *)

(** The sum of all account balances. *)
Definition total (us : list User) : Z :=
  fold_right (fun u acc => balance u + acc) 0 us.

(** The balance a client reads for an address. *)
Definition balanceOf (a : string) (db : Db) : option Z :=
  option_map balance (findOne a (users db)).

(** Every account balance is non-negative. *)
Definition nonnegative (us : list User) : Prop :=
  Forall (fun u => 0 <= balance u) us.

(** The reward constant. *)
Definition reward_constant : Z := 10.

Definition succeeded (res : Response) : bool := status res =? 200.


(** ** Further notions of the specification *)

(** The executable test of [nonnegative]. *)
Definition nonnegativeb (us : list User) : bool :=
  forallb (fun u => 0 <=? balance u) us.


(** The amounts a request carries are not negative. *)
Definition amounts_nonnegative (req : Request) : Prop :=
  match req with
  | PostUsersRegister body =>
      forall b, register_initialBalance body = Some b -> 0 <= b
  | PostTransactionsSend body =>
      forall a, send_amount body = Some a -> 0 <= a
  | _ => True
  end.

(** ** The outcomes of a handler that runs on its own *)

(** The two outcomes of a transfer that runs with nothing interleaved. *)
Inductive send_outcome (src : Source) (body : SendBody) (now : Z) (db : Db)
  : Response * Db -> Prop :=
| send_rejected (res : Response) :
    status res = 400 \/ status res = 404 ->
    send_outcome src body now db (res, db)
| send_applied (s r : string) (a : Z) (su ru : User) :
    send_sender body = Some s -> s <> "" ->
    send_receiver body = Some r -> r <> "" ->
    send_amount body = Some a ->
    (src <> part_000 -> a <> 0) ->
    (src = part_000 -> Z.abs a < 10 ^ 21) ->
    findOne s (users db) = Some su ->
    findOne r (users db) = Some ru ->
    a <= balance su ->
    send_outcome src body now db
      (json (MessageTransaction "Transaction successful" (mkTransaction s r a now)),
       mkDb (updateOne_inc r a (updateOne_inc s (- a) (users db)))
            (transactions db ++ [mkTransaction s r a now])
            (blocks db)).

(** The two outcomes of a reward issuance that runs with nothing
    interleaved. *)
Inductive mine_outcome (body : MineBody) (now : Z) (db : Db)
  : Response * Db -> Prop :=
| mine_rejected (res : Response) :
    status res = 400 \/ status res = 404 ->
    mine_outcome body now db (res, db)
| mine_applied (m : string) (mu : User) :
    mine_minerAddress body = Some m -> m <> "" ->
    findOne m (users db) = Some mu ->
    mine_outcome body now db
      (json (MessageBlock "Block mined successfully" (mkBlock m 10 now)),
       mkDb (updateOne_inc m 10 (users db))
            (transactions db)
            (blocks db ++ [mkBlock m 10 now])).

(** The two outcomes of a registration that runs with nothing interleaved. *)
Inductive register_outcome (body : RegisterBody) (now : Z) (db : Db)
  : Response * Db -> Prop :=
| register_rejected (res : Response) :
    status res = 400 ->
    register_outcome body now db (res, db)
| register_created (a : string) :
    register_address body = Some a -> a <> "" ->
    findOne a (users db) = None ->
    let newUser := mkUser a (or_zero (register_initialBalance body)) now in
    register_outcome body now db
      (status_json 201 (MessageUser "User registered successfully" newUser),
       mkDb (users db ++ [newUser]) (transactions db) (blocks db)).

(** ** Concurrent executions *)

(** The two serial executions of a pair of handlers. *)
Definition serial {A B : Type} (p : Async A) (q : Async B) (db : Db)
  : A * B * Db :=
  let (a, db1) := run p db in
  let (b, db2) := run q db1 in
  (a, b, db2).

(** The same with the second handler first. *)
Definition serial_rev {A B : Type} (p : Async A) (q : Async B) (db : Db)
  : A * B * Db :=
  let (b, db1) := run q db in
  let (a, db2) := run p db1 in
  (a, b, db2).

(** Two handlers are serializable on a store when every interleaving of
    their store operations gives the responses and the final store of one
    of the two serial executions. *)
Definition serializable {A B : Type} (p : Async A) (q : Async B) (db : Db)
  : Prop :=
  forall o, In o (interleavings p q db) ->
            o = serial p q db \/ o = serial_rev p q db.

(** The document [findOne] returns after an increment. *)
Definition incremented (b a : string) (d : Z) (u : User) : User :=
  if String.eqb b a then mkUser (address u) (double_add (balance u) d) (createdAt u) else u.

(** [/mine] past the test of its field. *)
Definition mine_core (minerAddress : string) (now : Z) : Async Response :=
  miner <- await (UsersFindOne minerAddress) ;;
  match miner with
  | None => Return (status_json 404 (Message "Miner does not exist"))
  | Some _ =>
      await (UsersUpdateOneInc minerAddress 10) ;;
      await (BlocksInsertOne (mkBlock minerAddress 10 now)) ;;
      Return (json (MessageBlock "Block mined successfully"
                      (mkBlock minerAddress 10 now)))
  end.

(** [/transactions/send] past the tests of its fields. *)
Definition send_core (sender receiver : string) (amount now : Z)
  : Async Response :=
  senderUser <- await (UsersFindOne sender) ;;
  receiverUser <- await (UsersFindOne receiver) ;;
  match senderUser, receiverUser with
  | Some senderUser, Some _ =>
      if balance senderUser <? amount
      then Return (status_json 400 (Message "Insufficient balance"))
      else
        await (UsersUpdateOneInc sender (- amount)) ;;
        await (UsersUpdateOneInc receiver amount) ;;
        await (TransactionsInsertOne (mkTransaction sender receiver amount now)) ;;
        Return (json (MessageTransaction "Transaction successful"
                        (mkTransaction sender receiver amount now)))
  | _, _ =>
      Return (status_json 404 (Message "Sender or Receiver does not exist"))
  end.

(** [/users/register] past the tests of its fields. *)
Definition register_core (address : string) (initialBalance : option Z) (now : Z)
  : Async Response :=
  existingUser <- await (UsersFindOne address) ;;
  match existingUser with
  | Some _ => Return (status_json 400 (Message "User already exists"))
  | None =>
      await (UsersInsertOne (mkUser address (or_zero initialBalance) now)) ;;
      Return (status_json 201
                (MessageUser "User registered successfully"
                   (mkUser address (or_zero initialBalance) now)))
  end.

(** The sum of the magnitudes of the balances. *)
Definition magnitude (us : list User) : Z :=
  fold_right (fun u acc => Z.abs (balance u) + acc) 0 us.

(** A fact about the store that no store operation invalidates. *)
Definition stable (P : Db -> Prop) : Prop :=
  forall (R : Type) (op : Op R) (db : Db), P db -> P (snd (exec op db)).


(** [adds P p f c]: from every store that satisfies [P], and whatever other
    handlers do in between, the store operations of [p] add [f res] to the
    sum of the balances by the time [p] answers [res], as long as the
    magnitudes of the balances and of the increment sum to at most
    [2 ^ 53] at each increment; the magnitudes of the increments of [p] sum
    to at most [c]. *)
Inductive adds {A : Type} : (Db -> Prop) -> Async A -> (A -> Z) -> Z -> Prop :=
| adds_Return (P : Db -> Prop) (a : A) (f : A -> Z) (c : Z) :
    f a = 0 -> 0 <= c -> adds P (Return a) f c
| adds_Await (P : Db -> Prop) (R : Type) (op : Op R) (k : R -> Async A)
    (f : A -> Z) (c delta : Z) (Q : R -> Db -> Prop) :
    Z.abs delta <= c ->
    (forall db, P db ->
                magnitude (users db) + Z.abs delta <= 2 ^ 53 ->
                total (users (snd (exec op db))) = total (users db) + delta
                /\ magnitude (users (snd (exec op db)))
                   <= magnitude (users db) + Z.abs delta) ->
    (forall db, P db -> Q (fst (exec op db)) (snd (exec op db))) ->
    (forall r, stable (Q r)) ->
    (forall r, adds (Q r) (k r) (fun a => f a - delta) (c - Z.abs delta)) ->
    adds P (Await op k) f c
| adds_absurd (P : Db -> Prop) (p : Async A) (f : A -> Z) (c : Z) :
    (forall db, ~ P db) -> adds P p f c.


(** ** Example stores and tests on outcomes *)

(** Alice holds 100, Bob holds 0. *)
Definition alice_bob : Db :=
  mkDb [mkUser "alice" 100 1; mkUser "bob" 0 2] [] [].

(** Alice holds a given balance, Bob holds 1. *)
Definition alice_at (b : Z) : Db :=
  mkDb [mkUser "alice" b 1; mkUser "bob" 1 2] [] [].

(** A miner holds 5 next to Alice and Bob. *)
Definition with_miner : Db :=
  mkDb [mkUser "alice" 100 1; mkUser "miner" 5 2; mkUser "bob" 0 3] [] [].

(** The test of the double spend: both transfers were answered 200 and the
    sender is left with a negative balance. *)
Definition both_succeeded_overdrawn (a : string) (o : Response * Response * Db)
  : bool :=
  succeeded (fst (fst o)) && succeeded (snd (fst o))
  && match balanceOf a (snd o) with
     | Some b => b <? 0
     | None => false
     end.

(** The test of a read between the debit and the credit. *)
Definition read_balance (b : Z) (o : Response * Response * Db) : bool :=
  match payload (snd (fst o)) with
  | BalanceOf b' => b' =? b
  | _ => false
  end.

(** ** The API key middleware and the application *)

(** [apiKey !== API_KEY], on a header and an environment variable that are
    each a string or [undefined]. *)
Definition strict_neq (x y : option string) : bool :=
  match x, y with
  | Some a, Some b => negb (String.eqb a b)
  | None, None => false
  | _, _ => true
  end.

(** The middleware in front of the routes; [next] is what the routes do with
    the request. *)
Definition apiKeyMiddleware (API_KEY apiKey : option string)
  (next : option (Async Response)) : option (Async Response) :=
  if strict_neq apiKey API_KEY
  then Some (Return (status_json 401 (Message "Unauthorized: Invalid API Key")))
  else next.

(** The application of a file: the middleware, then the routes. *)
Definition app (src : Source) (API_KEY apiKey : option string)
  (req : Request) (now : Z) : option (Async Response) :=
  apiKeyMiddleware API_KEY apiKey (route src req now).

(** A request as it arrives: its [x-api-key] header, what it asks for and
    when. *)
Record Incoming := mkIncoming {
  x_api_key : option string;
  asked : Request;
  arrival : Z
}.

(** Requests served one after the other.  A request that no handler of the
    file takes is answered 404 by express and leaves the store as it is. *)
Fixpoint serve (src : Source) (API_KEY : option string)
  (reqs : list Incoming) (db : Db) : list Response * Db :=
  match reqs with
  | [] => ([], db)
  | i :: rest =>
      match app src API_KEY (x_api_key i) (asked i) (arrival i) with
      | Some h =>
          let (res, db1) := run h db in
          let (ress, db2) := serve src API_KEY rest db1 in
          (res :: ress, db2)
      | None =>
          let (ress, db2) := serve src API_KEY rest db in
          (mkResponse 404 CannotRoute :: ress, db2)
      end
  end.

(** ** What the records say about an account *)







(** Addresses are unique and none is empty. *)
Definition users_wellformed (us : list User) : Prop :=
  NoDup (map address us) /\ Forall (fun a => a <> "") (map address us).

(** Every record names accounts that exist, and every block carries the
    reward constant. *)
Definition records_wellformed (db : Db) : Prop :=
  Forall (fun t => findOne (sender t) (users db) <> None
                   /\ findOne (receiver t) (users db) <> None)
         (transactions db)
  /\ Forall (fun b => findOne (miner b) (users db) <> None /\ reward b = 10)
            (blocks db).

(** What identifies an account for good: its address and its creation
    time. *)
Definition identity (u : User) : string * Z := (address u, createdAt u).

(** [db'] keeps everything [db] recorded: both logs and the accounts, in
    order, with something appended at most. *)
Definition extends (db db' : Db) : Prop :=
  (exists ts, transactions db' = transactions db ++ ts)
  /\ (exists bs, blocks db' = blocks db ++ bs)
  /\ (exists us, map identity (users db') = map identity (users db) ++ us).





(** The effect of one handled request on the store: nothing, a new account,
    a transfer or a reward. *)
Inductive effect (db : Db) : Response * Db -> Prop :=
| effect_none (res : Response) :
    status res <> 201 ->
    effect db (res, db)
| effect_register (a : string) (b now : Z) :
    a <> "" -> findOne a (users db) = None ->
    effect db
      (status_json 201
         (MessageUser "User registered successfully" (mkUser a b now)),
       mkDb (users db ++ [mkUser a b now]) (transactions db) (blocks db))
| effect_send (s r : string) (a now : Z) (su ru : User) :
    s <> "" -> r <> "" ->
    findOne s (users db) = Some su -> findOne r (users db) = Some ru ->
    a <= balance su ->
    effect db
      (json (MessageTransaction "Transaction successful" (mkTransaction s r a now)),
       mkDb (updateOne_inc r a (updateOne_inc s (- a) (users db)))
            (transactions db ++ [mkTransaction s r a now])
            (blocks db))
| effect_mine (m : string) (now : Z) (mu : User) :
    m <> "" -> findOne m (users db) = Some mu ->
    effect db
      (json (MessageBlock "Block mined successfully" (mkBlock m 10 now)),
       mkDb (updateOne_inc m 10 (users db))
            (transactions db)
            (blocks db ++ [mkBlock m 10 now])).



(** The amount of a transfer is a double, as every number that the body
    parser hands to a handler is. *)
Definition amount_is_double (body : SendBody) : Prop :=
  forall a, send_amount body = Some a -> is_double a.

(** A request that is not a transfer from the given address to itself, and
    whose amount, if it is a transfer, is a double. *)
Definition no_self_transfer_of (address : option string) (req : Request) : Prop :=
  match req with
  | PostTransactionsSend body =>
      ~ (send_sender body = address /\ send_receiver body = address)
      /\ amount_is_double body
  | _ => True
  end.


(** * Properties *)

(** ** Doubles *)

Lemma round_magnitude_small (m : Z) : m < 2 ^ 53 -> round_magnitude m = m.
Proof.
  intros H. unfold round_magnitude.
  destruct (Z.ltb_spec m (2 ^ 53)); [reflexivity | lia].
Qed.

(** The shape of a rounded magnitude from [2 ^ 53] on. *)
Lemma round_magnitude_large (m : Z) :
  2 ^ 53 <= m ->
  exists ulp q,
    2 <= ulp /\ 2 ^ 52 <= q < 2 ^ 53
    /\ ulp = 2 ^ (Z.log2 m - 52)
    /\ q * ulp <= m < (q + 1) * ulp
    /\ (round_magnitude m = q * ulp \/ round_magnitude m = (q + 1) * ulp)
    /\ (m = q * ulp -> round_magnitude m = m).
Proof.
  intros H.
  assert (Hm : 0 < m) by (pose proof (Z.pow_pos_nonneg 2 53); lia).
  pose proof (Z.log2_spec m Hm) as [Hlo Hhi].
  assert (Hlog : 53 <= Z.log2 m).
  { apply Z.log2_le_pow2; [exact Hm | exact H]. }
  set (e := Z.log2 m - 52) in *.
  assert (He : 1 <= e) by (unfold e; lia).
  set (ulp := 2 ^ e).
  assert (Hulp : 2 <= ulp).
  { unfold ulp. change 2 with (2 ^ 1) at 1. apply Z.pow_le_mono_r; lia. }
  assert (Hsplit : 2 ^ Z.log2 m = 2 ^ 52 * ulp).
  { unfold ulp. rewrite <- Z.pow_add_r by lia. f_equal. unfold e. lia. }
  assert (Hsplit' : 2 ^ Z.succ (Z.log2 m) = 2 ^ 53 * ulp).
  { unfold ulp. rewrite <- Z.pow_add_r by lia. f_equal. unfold e. lia. }
  pose proof (Z.div_mod m ulp ltac:(lia)) as Hdm.
  pose proof (Z.mod_pos_bound m ulp ltac:(lia)) as Hr.
  set (q := m / ulp) in *. set (r := m mod ulp) in *.
  assert (Hq : 2 ^ 52 <= q < 2 ^ 53) by nia.
  exists ulp, q. repeat split; try lia; try nia.
  - unfold round_magnitude.
    destruct (Z.ltb_spec m (2 ^ 53)); [lia|]. fold e. fold ulp. fold q. fold r.
    destruct (2 * r <? ulp); [now left|].
    destruct (ulp <? 2 * r); [now right|].
    destruct (Z.even q); [now left | now right].
  - intros E. unfold round_magnitude.
    destruct (Z.ltb_spec m (2 ^ 53)); [lia|]. fold e. fold ulp. fold q. fold r.
    assert (r = 0) by nia.
    destruct (Z.ltb_spec (2 * r) ulp); [lia | lia].
Qed.

Lemma round_magnitude_nonneg (m : Z) : 0 <= m -> 0 <= round_magnitude m.
Proof.
  intros H. destruct (Z.lt_ge_cases m (2 ^ 53)) as [Hs|Hl].
  - now rewrite round_magnitude_small.
  - destruct (round_magnitude_large m Hl) as (ulp & q & Hu & Hq & _ & _ & [E|E] & _);
      rewrite E; nia.
Qed.


(** A rounded magnitude is not below a double that the magnitude is not
    below. *)
Lemma round_magnitude_lower (a m : Z) :
  0 <= a -> round_magnitude a = a -> a <= m -> a <= round_magnitude m.
Proof.
  intros Ha Hda Hle.
  destruct (Z.lt_ge_cases m (2 ^ 53)) as [Hs|Hl].
  - now rewrite round_magnitude_small.
  - destruct (round_magnitude_large m Hl)
      as (ulp & q & Hu & Hq & Eu & Hfl & Hr & _).
    assert (Hge : q * ulp <= round_magnitude m) by (destruct Hr as [E|E]; rewrite E; nia).
    destruct (Z.lt_ge_cases a (2 ^ 52 * ulp)) as [Hlow|Hsame]; [nia|].
    assert (Ha53 : 2 ^ 53 <= a) by nia.
    destruct (round_magnitude_large a Ha53)
      as (ulp' & q' & _ & Hq' & Eu' & _ & Hr' & _).
    assert (Elog : Z.log2 a = Z.log2 m).
    { assert (Hm : 0 < m) by lia.
      pose proof (Z.log2_spec m Hm) as [Hlo Hhi].
      apply Z.log2_unique; [apply Z.log2_nonneg|].
      assert (E52 : 2 ^ Z.log2 m = 2 ^ 52 * ulp).
      { rewrite Eu, <- Z.pow_add_r; [f_equal; lia | lia |].
        assert (53 <= Z.log2 m) by (apply Z.log2_le_pow2; lia). lia. }
      lia. }
    rewrite Elog, <- Eu in Eu'. subst ulp'.
    assert (Hmult : exists k, a = k * ulp).
    { destruct Hr' as [E|E]; rewrite Hda in E; eauto. }
    destruct Hmult as [k Ek].
    assert (Hk : k <= q).
    { apply Z.lt_succ_r. apply (Z.mul_lt_mono_pos_r ulp); lia. }
    apply Z.le_trans with (q * ulp); [|exact Hge].
    rewrite Ek. apply Z.mul_le_mono_nonneg_r; lia.
Qed.

(** A rounded magnitude is not above a double that the magnitude is not
    above. *)
Lemma round_magnitude_upper (b m : Z) :
  0 <= m -> round_magnitude b = b -> m <= b -> round_magnitude m <= b.
Proof.
  intros Hm0 Hdb Hle.
  destruct (Z.lt_ge_cases m (2 ^ 53)) as [Hs|Hl].
  - now rewrite round_magnitude_small.
  - destruct (round_magnitude_large m Hl)
      as (ulp & q & Hu & Hq & Eu & Hfl & Hr & Hex).
    destruct (Z.lt_ge_cases b (2 ^ 53 * ulp)) as [Hsame|Hhigh];
      [|destruct Hr as [E|E]; rewrite E; nia].
    assert (Hb53 : 2 ^ 53 <= b) by lia.
    destruct (round_magnitude_large b Hb53)
      as (ulp' & q' & _ & Hq' & Eu' & _ & Hr' & _).
    assert (Elog : Z.log2 b = Z.log2 m).
    { assert (Hm : 0 < m) by lia.
      pose proof (Z.log2_spec m Hm) as [Hlo Hhi].
      apply Z.log2_unique; [apply Z.log2_nonneg|].
      assert (E53 : 2 ^ Z.succ (Z.log2 m) = 2 ^ 53 * ulp).
      { rewrite Eu, <- Z.pow_add_r; [f_equal; lia | lia |].
        assert (53 <= Z.log2 m) by (apply Z.log2_le_pow2; lia). lia. }
      replace (Z.log2 m + 1) with (Z.succ (Z.log2 m)) by lia. lia. }
    rewrite Elog, <- Eu in Eu'. subst ulp'.
    assert (Hmult : exists k, b = k * ulp).
    { destruct Hr' as [E|E]; rewrite Hdb in E; eauto. }
    destruct Hmult as [k Ek].
    destruct (Z.eq_dec m (q * ulp)) as [Eq|Hneq].
    + rewrite (Hex Eq). lia.
    + assert (Hk : q < k).
      { apply (Z.mul_lt_mono_pos_r ulp); lia. }
      assert (Hk' : (q + 1) * ulp <= k * ulp).
      { apply Z.mul_le_mono_nonneg_r; lia. }
      destruct Hr as [E|E]; rewrite E; lia.
Qed.


Lemma round_double_nonneg (z : Z) : 0 <= z -> 0 <= round_double z.
Proof.
  intros H. unfold round_double.
  apply Z.mul_nonneg_nonneg.
  - now apply Z.sgn_nonneg.
  - apply round_magnitude_nonneg, Z.abs_nonneg.
Qed.

Lemma round_double_opp (z : Z) : round_double (- z) = - round_double z.
Proof.
  unfold round_double. rewrite Z.sgn_opp, Z.abs_opp. lia.
Qed.

Lemma round_double_of_nonneg (z : Z) :
  0 <= z -> round_double z = round_magnitude z.
Proof.
  intros H. unfold round_double. rewrite (Z.abs_eq z H).
  destruct (Z.eq_dec z 0) as [->|Hne]; [reflexivity|].
  rewrite Z.sgn_pos by lia. lia.
Qed.

Lemma round_double_of_neg (z : Z) :
  z < 0 -> round_double z = - round_magnitude (- z).
Proof.
  intros H. unfold round_double. rewrite (Z.abs_neq z) by lia.
  rewrite Z.sgn_neg by lia. lia.
Qed.

(** Rounding does not cross a double. *)
Lemma round_double_lower (a y : Z) :
  is_double a -> a <= y -> a <= round_double y.
Proof.
  unfold is_double. intros Ha Hle.
  destruct (Z.lt_ge_cases y 0) as [Hy|Hy].
  - rewrite (round_double_of_neg y Hy).
    rewrite (round_double_of_neg a) in Ha by lia.
    assert (Ha' : round_magnitude (- a) = - a) by lia.
    pose proof (round_magnitude_upper (- a) (- y) ltac:(lia) Ha' ltac:(lia)).
    lia.
  - destruct (Z.lt_ge_cases a 0) as [Hn|Hp].
    + pose proof (round_double_nonneg y Hy). lia.
    + rewrite (round_double_of_nonneg y Hy).
      rewrite (round_double_of_nonneg a Hp) in Ha.
      now apply round_magnitude_lower.
Qed.

(** ** The store operations *)

Section Store.

Variable a : string.



Lemma findOne_address (us : list User) (u : User) :
  findOne a us = Some u -> address u = a.
Proof.
  induction us as [|x rest IH]; simpl; [discriminate|].
  destruct (String.eqb (address x) a) eqn:E; [|exact IH].
  intros H. injection H as <-. now apply String.eqb_eq.
Qed.

Lemma findOne_In (us : list User) (u : User) :
  findOne a us = Some u -> In u us.
Proof.
  induction us as [|x rest IH]; simpl; [discriminate|].
  destruct (String.eqb (address x) a).
  - intros H. injection H as <-. now left.
  - intros H. right. now apply IH.
Qed.

Lemma findOne_updateOne_inc_same (d : Z) (us : list User) (u : User) :
  findOne a us = Some u ->
  findOne a (updateOne_inc a d us)
  = Some (mkUser (address u) (double_add (balance u) d) (createdAt u)).
Proof.
  induction us as [|x rest IH]; simpl; [discriminate|].
  destruct (String.eqb (address x) a) eqn:E; simpl; rewrite E.
  - intros H. now injection H as <-.
  - exact IH.
Qed.

Lemma findOne_updateOne_inc_other (b : string) (d : Z) (us : list User) :
  b <> a ->
  findOne b (updateOne_inc a d us) = findOne b us.
Proof.
  intros Hne. induction us as [|x rest IH]; simpl; [reflexivity|].
  destruct (String.eqb (address x) a) eqn:E; simpl.
  - apply String.eqb_eq in E.
    destruct (String.eqb (address x) b) eqn:E'; [|reflexivity].
    apply String.eqb_eq in E'. congruence.
  - now rewrite IH.
Qed.

Lemma updateOne_inc_missing (d : Z) (us : list User) :
  findOne a us = None -> updateOne_inc a d us = us.
Proof.
  induction us as [|x rest IH]; simpl; [reflexivity|].
  destruct (String.eqb (address x) a); [discriminate|].
  intros H. now rewrite IH.
Qed.


Lemma nonnegative_updateOne_inc (d : Z) (us : list User) :
  nonnegative us ->
  (forall u, findOne a us = Some u -> 0 <= balance u + d) ->
  nonnegative (updateOne_inc a d us).
Proof.
  unfold nonnegative.
  induction us as [|x rest IH]; simpl; intros Hall Hd; [constructor|].
  inversion Hall as [|? ? Hx Hrest]; subst.
  destruct (String.eqb (address x) a).
  - constructor; [|exact Hrest]. simpl.
    apply round_double_nonneg. now apply Hd.
  - constructor; [exact Hx | now apply IH].
Qed.

End Store.

Lemma nonnegativeb_spec (us : list User) :
  nonnegativeb us = true <-> nonnegative us.
Proof.
  unfold nonnegativeb, nonnegative. rewrite forallb_forall, Forall_forall.
  split; intros H u Hu; specialize (H u Hu); lia.
Qed.

Lemma nonnegative_insert (u : User) (us : list User) :
  nonnegative us -> 0 <= balance u -> nonnegative (us ++ [u]).
Proof.
  unfold nonnegative. intros Hus Hu. apply Forall_app. split; [exact Hus|].
  now constructor.
Qed.



(** ** What a handler run on its own does *)

Lemma truthy_string_Some (v : option string) (s : string) :
  truthy_string v = Some s <-> v = Some s /\ s <> "".
Proof.
  unfold truthy_string. destruct v as [x|]; [|split; [discriminate | now intros [? _]]].
  destruct (String.eqb x "") eqn:E.
  - apply String.eqb_eq in E. split; [discriminate|]. intros [H Hne]. congruence.
  - apply String.eqb_neq in E. split.
    + intros H. injection H as <-. auto.
    + intros [H _]. exact H.
Qed.

Lemma truthy_number_Some (v : option Z) (n : Z) :
  truthy_number v = Some n <-> v = Some n /\ n <> 0.
Proof.
  unfold truthy_number. destruct v as [x|]; [|split; [discriminate | now intros [? _]]].
  destruct (Z.eqb_spec x 0) as [E|E].
  - split; [discriminate|]. intros [H Hne]. congruence.
  - split.
    + intros H. injection H as <-. auto.
    + intros [H _]. exact H.
Qed.

Lemma Blockchain_send_outcome (src : Source) (body : SendBody) (now : Z) (db : Db) :
  src <> part_000 ->
  send_outcome src body now db (run (Blockchain.send body now) db).
Proof.
  intros Hsrc. unfold Blockchain.send.
  destruct (truthy_string (send_sender body)) as [s|] eqn:Es;
    [|simpl; constructor; auto].
  destruct (truthy_string (send_receiver body)) as [r|] eqn:Er;
    [|simpl; constructor; auto].
  destruct (truthy_number (send_amount body)) as [a|] eqn:Ea;
    [|simpl; constructor; auto].
  apply truthy_string_Some in Es, Er. apply truthy_number_Some in Ea.
  destruct Es as [Es Hs], Er as [Er Hr], Ea as [Ea Ha].
  simpl.
  destruct (findOne s (users db)) as [su|] eqn:Fs; [|simpl; constructor; auto].
  destruct (findOne r (users db)) as [ru|] eqn:Fr; [|simpl; constructor; auto].
  destruct (Z.ltb_spec (balance su) a) as [Hlt|Hge]; simpl; [constructor; auto|].
  now apply send_applied with (su := su) (ru := ru).
Qed.

Lemma Validated_send_outcome (body : SendBody) (now : Z) (db : Db) :
  send_outcome part_000 body now db (run (Validated.send body now) db).
Proof.
  unfold Validated.send, Validated.validate_send, Validated.check,
         Validated.isNumeric.
  destruct body as [[s|] [r|] [a|]]; cbn [send_sender send_receiver send_amount
      Validated.isString Validated.notEmpty Validated.notEmpty_number];
    repeat match goal with
           | |- context [String.eqb ?x ""] => destruct (String.eqb x "") eqn:?
           | |- context [Z.ltb (Z.abs ?x) ?y] =>
               destruct (Z.ltb_spec (Z.abs x) y)
           end; simpl;
    try (constructor; auto; fail).
  repeat match goal with
         | H : String.eqb _ "" = false |- _ => apply String.eqb_neq in H
         end.
  destruct (findOne s (users db)) as [su|] eqn:Fs; [|simpl; constructor; auto].
  destruct (findOne r (users db)) as [ru|] eqn:Fr; [|simpl; constructor; auto].
  destruct (Z.ltb_spec (balance su) a) as [Hlt|Hge]; simpl; [constructor; auto|].
  apply send_applied with (su := su) (ru := ru); auto.
Qed.

Lemma send_outcome_run (src : Source) (body : SendBody) (now : Z) (db : Db) :
  send_outcome src body now db (run (send src body now) db).
Proof.
  destruct src; simpl.
  - apply Blockchain_send_outcome. discriminate.
  - apply Validated_send_outcome.
  - apply Blockchain_send_outcome. discriminate.
Qed.

Lemma mine_outcome_run (src : Source) (body : MineBody) (now : Z) (db : Db) :
  mine_outcome body now db (run (mine src body now) db).
Proof.
  assert (B : mine_outcome body now db (run (Blockchain.mine body now) db)).
  { unfold Blockchain.mine.
    destruct (truthy_string (mine_minerAddress body)) as [m|] eqn:Em;
      [|simpl; constructor; auto].
    apply truthy_string_Some in Em. destruct Em as [Em Hm]. simpl.
    destruct (findOne m (users db)) as [mu|] eqn:Fm; simpl; [|constructor; auto].
    now apply mine_applied with (mu := mu). }
  destruct src; simpl; try exact B.
  unfold Validated.mine, Validated.validate_mine.
  destruct body as [[m|]]; simpl; [|constructor; auto].
  unfold Validated.check.
  destruct (String.eqb m "") eqn:Em; simpl; [constructor; auto|].
  apply String.eqb_neq in Em.
  destruct (findOne m (users db)) as [mu|] eqn:Fm; simpl; [|constructor; auto].
  now apply mine_applied with (mu := mu).
Qed.

Lemma updateOne_inc_split (a : string) (d : Z) (us : list User) (u : User) :
  findOne a us = Some u ->
  exists before after,
    us = before ++ u :: after
    /\ updateOne_inc a d us
       = before ++ mkUser (address u) (double_add (balance u) d) (createdAt u) :: after.
Proof.
  induction us as [|x rest IH]; simpl; [discriminate|].
  destruct (String.eqb (address x) a).
  - intros H. injection H as <-. now exists [], rest.
  - intros H. destruct (IH H) as (before & after & -> & ->).
    now exists (x :: before), after.
Qed.


Lemma send_nonnegative (src : Source) (body : SendBody) (now : Z) (db : Db) :
  (forall a, send_amount body = Some a -> 0 <= a) ->
  nonnegative (users db) ->
  nonnegative (users (snd (run (send src body now) db))).
Proof.
  intros Ha Hdb.
  destruct (send_outcome_run src body now db)
    as [res _ | s r a su ru _ _ _ _ Ea _ _ Fs Fr Hle]; simpl; [exact Hdb|].
  specialize (Ha a Ea).
  assert (Hs : nonnegative (updateOne_inc s (- a) (users db))).
  { apply nonnegative_updateOne_inc; [exact Hdb|].
    intros u Fu. rewrite Fs in Fu. injection Fu as <-. lia. }
  apply nonnegative_updateOne_inc; [exact Hs|].
  intros u Fu. apply findOne_In in Fu.
  unfold nonnegative in Hs. rewrite Forall_forall in Hs.
  specialize (Hs u Fu). lia.
Qed.

Lemma mine_nonnegative (src : Source) (body : MineBody) (now : Z) (db : Db) :
  nonnegative (users db) ->
  nonnegative (users (snd (run (mine src body now) db))).
Proof.
  intros Hdb.
  destruct (mine_outcome_run src body now db) as [res _ | m mu _ _ Fm];
    simpl; [exact Hdb|].
  apply nonnegative_updateOne_inc; [exact Hdb|].
  intros u Fu. apply findOne_In in Fu.
  unfold nonnegative in Hdb. rewrite Forall_forall in Hdb.
  specialize (Hdb u Fu). lia.
Qed.







(** ** Conservation of the total balance *)




(** ** Transfers *)

Lemma send_outcome_failed (src : Source) (body : SendBody) (now : Z) (db : Db) :
  status (fst (run (send src body now) db)) <> 200 ->
  (status (fst (run (send src body now) db)) = 400
   \/ status (fst (run (send src body now) db)) = 404)
  /\ snd (run (send src body now) db) = db.
Proof.
  destruct (send_outcome_run src body now db) as [res Hres | ]; simpl.
  - auto.
  - intros Hne. now elim Hne.
Qed.

Lemma send_insufficient (src : Source) (body : SendBody) (now : Z) (db : Db)
  (s : string) (a : Z) (su : User) :
  send_sender body = Some s ->
  send_amount body = Some a ->
  findOne s (users db) = Some su ->
  balance su < a ->
  status (fst (run (send src body now) db)) <> 200.
Proof.
  intros Hs Ha Fs Hlt.
  destruct (send_outcome_run src body now db)
    as [res Hres | s' r' a' su' ru' Hs' _ _ _ Ha' _ _ Fs' _ Hle]; simpl.
  - destruct Hres as [E|E]; rewrite E; discriminate.
  - exfalso. rewrite Hs in Hs'. injection Hs' as <-.
    rewrite Ha in Ha'. injection Ha' as <-.
    rewrite Fs in Fs'. injection Fs' as <-. lia.
Qed.

(** C2.  A transfer request that fails with an error of the handler
    (status 400 or 404: a missing or invalid field, an unknown sender or
    receiver, an insufficient balance) leaves the whole store as it was, so
    every balance is unchanged and no TransferRecord is appended; and a
    request whose amount exceeds the balance of its sender is among those
    that fail. *)
Theorem failed_transfer_leaves_store_unchanged
  (src : Source) (body : SendBody) (now : Z) (db : Db) :
  status (fst (run (send src body now) db)) <> 200
  \/ (exists s a su,
        send_sender body = Some s /\ send_amount body = Some a
        /\ findOne s (users db) = Some su /\ balance su < a) ->
  (status (fst (run (send src body now) db)) = 400
   \/ status (fst (run (send src body now) db)) = 404)
  /\ snd (run (send src body now) db) = db.
Proof.
  intros [Hfail | (s & a & su & Hs & Ha & Fs & Hlt)].
  - now apply send_outcome_failed.
  - apply send_outcome_failed. now apply send_insufficient with s a su.
Qed.

Lemma failed_transfer_leaves_store_unchanged_witness :
  let body := mkSendBody (Some "alice") (Some "bob") (Some 101) in
  run (send part_000 body 3) alice_bob
  = (status_json 400 (Message "Insufficient balance"), alice_bob)
  /\ snd (run (send part_000 body 3) alice_bob) = alice_bob.
Proof.
  simpl. split; [reflexivity|].
  apply (failed_transfer_leaves_store_unchanged part_000
           (mkSendBody (Some "alice") (Some "bob") (Some 101)) 3 alice_bob).
  right. exists "alice", 101, (mkUser "alice" 100 1).
  repeat split; simpl; lia.
Defined.

(** What a transfer between existing accounts with a sufficient balance
    does, in every file. *)
Lemma send_succeeds (src : Source) (now : Z) (db : Db)
  (s r : string) (a : Z) (su ru : User) :
  s <> "" -> r <> "" -> a <> 0 -> Z.abs a < 10 ^ 21 ->
  findOne s (users db) = Some su ->
  findOne r (users db) = Some ru ->
  a <= balance su ->
  run (send src (mkSendBody (Some s) (Some r) (Some a)) now) db
  = (json (MessageTransaction "Transaction successful" (mkTransaction s r a now)),
     mkDb (updateOne_inc r a (updateOne_inc s (- a) (users db)))
          (transactions db ++ [mkTransaction s r a now])
          (blocks db)).
Proof.
  intros Hs Hr Ha Hbig Fs Fr Hle.
  apply String.eqb_neq in Hs, Hr. apply Z.eqb_neq in Ha. apply Z.ltb_ge in Hle.
  apply Z.ltb_lt in Hbig.
  destruct src; simpl;
    unfold Blockchain.send, Validated.send, Validated.validate_send,
           Validated.check, Validated.isNumeric;
    cbn [send_sender send_receiver send_amount truthy_string truthy_number
         Validated.isString Validated.notEmpty Validated.notEmpty_number];
    rewrite ?Hs, ?Hr, ?Ha, ?Hbig; simpl; rewrite Fs, Fr; simpl; rewrite Hle;
    reflexivity.
Qed.

(** C6.  A transfer of 40 from an existing account A that holds 100 to an
    existing account B that holds 0 succeeds: afterwards A holds 60 and B
    holds 40, exactly one TransferRecord was appended, with sender A,
    receiver B and amount 40, and no other account was touched. *)
Theorem transfer_40_from_100_to_0
  (src : Source) (now : Z) (db : Db) (A B : string) (uA uB : User) :
  A <> "" -> B <> "" ->
  findOne A (users db) = Some uA -> balance uA = 100 ->
  findOne B (users db) = Some uB -> balance uB = 0 ->
  let t := mkTransaction A B 40 now in
  let out := run (send src (mkSendBody (Some A) (Some B) (Some 40)) now) db in
  fst out = json (MessageTransaction "Transaction successful" t)
  /\ balanceOf A (snd out) = Some 60
  /\ balanceOf B (snd out) = Some 40
  /\ transactions (snd out) = transactions db ++ [t]
  /\ blocks (snd out) = blocks db
  /\ (forall X, X <> A -> X <> B ->
      findOne X (users (snd out)) = findOne X (users db)).
Proof.
  intros HA HB FA bA FB bB t out.
  assert (Hne : A <> B).
  { intros ->. rewrite FA in FB. injection FB as <-. lia. }
  unfold out.
  rewrite (send_succeeds src now db A B 40 uA uB)
    by (auto; try discriminate; try reflexivity; lia).
  unfold balanceOf. cbn [fst snd users transactions blocks].
  repeat split.
  - rewrite findOne_updateOne_inc_other by exact Hne.
    rewrite (findOne_updateOne_inc_same A _ _ uA FA). simpl. rewrite bA.
    reflexivity.
  - erewrite findOne_updateOne_inc_same
      by (rewrite findOne_updateOne_inc_other by congruence; exact FB).
    simpl. rewrite bB. reflexivity.
  - intros X XA XB. now rewrite !findOne_updateOne_inc_other by assumption.
Qed.

Lemma transfer_40_from_100_to_0_witness :
  let out := run (send blockchain_js
                    (mkSendBody (Some "alice") (Some "bob") (Some 40)) 3)
                 alice_bob in
  balanceOf "alice" (snd out) = Some 60
  /\ balanceOf "bob" (snd out) = Some 40
  /\ transactions (snd out) = [mkTransaction "alice" "bob" 40 3].
Proof.
  pose proof (transfer_40_from_100_to_0 blockchain_js 3 alice_bob
                "alice" "bob" (mkUser "alice" 100 1) (mkUser "bob" 0 2)) as T.
  simpl in T.
  destruct T as (_ & TA & TB & TT & _);
    try reflexivity; try discriminate.
  simpl. auto.
Defined.




(** ** Reward issuance *)

Lemma mine_succeeds (src : Source) (now : Z) (db : Db) (m : string) (mu : User) :
  m <> "" ->
  findOne m (users db) = Some mu ->
  run (mine src (mkMineBody (Some m)) now) db
  = (json (MessageBlock "Block mined successfully" (mkBlock m 10 now)),
     mkDb (updateOne_inc m 10 (users db))
          (transactions db)
          (blocks db ++ [mkBlock m 10 now])).
Proof.
  intros Hm Fm. apply String.eqb_neq in Hm.
  destruct src; simpl;
    unfold Blockchain.mine, Validated.mine, Validated.validate_mine,
           Validated.check; simpl;
    rewrite Hm; simpl; rewrite Fm; reflexivity.
Qed.

(** C7.  Issuing a reward to an existing miner M that holds 5 succeeds:
    afterwards M holds 15, exactly one RewardRecord was appended, with miner
    M and reward 10, and the only document of [users] that changed is the
    one of M. *)
Theorem reward_5_becomes_15
  (src : Source) (now : Z) (db : Db) (M : string) (uM : User) :
  M <> "" ->
  findOne M (users db) = Some uM -> balance uM = 5 ->
  let b := mkBlock M 10 now in
  let out := run (mine src (mkMineBody (Some M)) now) db in
  fst out = json (MessageBlock "Block mined successfully" b)
  /\ balanceOf M (snd out) = Some 15
  /\ blocks (snd out) = blocks db ++ [b]
  /\ reward b = reward_constant
  /\ transactions (snd out) = transactions db
  /\ (exists before after,
        users db = before ++ uM :: after
        /\ users (snd out)
           = before ++ mkUser (address uM) 15 (createdAt uM) :: after)
  /\ (forall X, X <> M -> balanceOf X (snd out) = balanceOf X db).
Proof.
  intros HM FM bM b out. unfold out.
  rewrite (mine_succeeds src now db M uM HM FM).
  unfold balanceOf. cbn [fst snd users transactions blocks].
  repeat split.
  - rewrite (findOne_updateOne_inc_same M 10 _ uM FM). simpl. rewrite bM.
    reflexivity.
  - destruct (updateOne_inc_split M 10 _ uM FM) as (before & after & E1 & E2).
    exists before, after. split; [exact E1|]. rewrite E2, bM. reflexivity.
  - intros X HX. now rewrite findOne_updateOne_inc_other.
Qed.

Lemma reward_5_becomes_15_witness :
  let out := run (mine part_001 (mkMineBody (Some "miner")) 7) with_miner in
  balanceOf "miner" (snd out) = Some 15
  /\ blocks (snd out) = [mkBlock "miner" 10 7]
  /\ balanceOf "alice" (snd out) = Some 100.
Proof.
  pose proof (reward_5_becomes_15 part_001 7 with_miner "miner"
                (mkUser "miner" 5 2)) as T.
  simpl in T.
  destruct T as (_ & TM & TB & _ & _ & _ & TX);
    try reflexivity; try discriminate.
  simpl. repeat split; auto.
Defined.

(** ** Registration *)

Lemma Blockchain_register_outcome (body : RegisterBody) (now : Z) (db : Db) :
  register_outcome body now db (run (Blockchain.register body now) db).
Proof.
  unfold Blockchain.register.
  destruct (truthy_string (register_address body)) as [a|] eqn:Ea;
    [|simpl; now constructor].
  destruct (truthy_number (register_initialBalance body)) as [n|] eqn:En;
    [|simpl; now constructor].
  apply truthy_string_Some in Ea. destruct Ea as [Ea Ha]. simpl.
  destruct (findOne a (users db)) eqn:Fa; simpl; [now constructor|].
  now apply register_created.
Qed.

Lemma Validated_register_outcome (body : RegisterBody) (now : Z) (db : Db) :
  register_outcome body now db (run (Validated.register body now) db).
Proof.
  unfold Validated.register, Validated.validate_register, Validated.check.
  destruct body as [[a|] ib]; simpl;
    [|destruct ib; simpl; now constructor].
  destruct (String.eqb a "") eqn:Ea; simpl;
    [destruct ib; simpl; now constructor|].
  apply String.eqb_neq in Ea.
  destruct (Validated.optional ib
              (if Validated.isNumeric ib then []
               else [mkValidationError "initialBalance"])) eqn:E; simpl;
    [|now constructor].
  destruct (findOne a (users db)) eqn:Fa; simpl; [now constructor|].
  now apply (register_created (mkRegisterBody (Some a) ib)).
Qed.

(** X18.  In [part_000] a registration that omits [initialBalance], for a
    non-empty address that has no account, is answered 201 and creates the
    account with balance 0. *)
Lemma Validated_register_default_balance (a : string) (now : Z) (db : Db) :
  a <> "" ->
  findOne a (users db) = None ->
  run (Validated.register (mkRegisterBody (Some a) None) now) db
  = (status_json 201
       (MessageUser "User registered successfully" (mkUser a 0 now)),
     mkDb (users db ++ [mkUser a 0 now]) (transactions db) (blocks db)).
Proof.
  intros Ha Fa. apply String.eqb_neq in Ha.
  unfold Validated.register, Validated.validate_register, Validated.check.
  simpl. rewrite Ha. simpl. rewrite Fa. reflexivity.
Qed.

(** C9.  In [blockchain.js] a registration request with an address and no
    [initialBalance] is answered 400 "Address and initial balance are
    required" and creates no account, whatever the address and the store:
    the guard on [!initialBalance] rejects the request before the default
    [initialBalance || 0] of the new document can apply. *)
Theorem register_without_initialBalance_is_rejected
  (a : string) (now : Z) (db : Db) :
  run (Blockchain.register (mkRegisterBody (Some a) None) now) db
  = (status_json 400 (Message "Address and initial balance are required"), db).
Proof.
  unfold Blockchain.register. simpl.
  destruct (String.eqb a ""); reflexivity.
Qed.

(** ** Non-negative balances *)

Lemma or_zero_nonnegative (v : option Z) :
  (forall b, v = Some b -> 0 <= b) -> 0 <= or_zero v.
Proof.
  intros H. unfold or_zero.
  destruct (truthy_number v) as [n|] eqn:E; [|lia].
  apply truthy_number_Some in E. destruct E as [E _]. now apply H.
Qed.

Lemma register_nonnegative (body : RegisterBody) (now : Z) (db : Db)
  (out : Response * Db) :
  register_outcome body now db out ->
  (forall b, register_initialBalance body = Some b -> 0 <= b) ->
  nonnegative (users db) ->
  nonnegative (users (snd out)).
Proof.
  intros [res _ | a _ _ _ newUser] Hb Hdb; simpl; [exact Hdb|].
  apply nonnegative_insert; [exact Hdb|]. simpl. now apply or_zero_nonnegative.
Qed.

Lemma getBalance_reads (a : string) (db : Db) :
  snd (run (Blockchain.getBalance a) db) = db.
Proof.
  unfold Blockchain.getBalance. simpl. now destruct (findOne a (users db)).
Qed.

Lemma getTransactions_reads (a : string) (db : Db) :
  snd (run (Blockchain.getTransactions a) db) = db.
Proof.
  unfold Blockchain.getTransactions. simpl.
  now destruct (List.length (find_sender_or_receiver a (transactions db)) =? 0)%nat.
Qed.

Lemma route_nonnegative
  (src : Source) (req : Request) (now : Z) (h : Async Response) (db : Db) :
  route src req now = Some h ->
  amounts_nonnegative req ->
  nonnegative (users db) ->
  nonnegative (users (snd (run h db))).
Proof.
  intros Hroute Hreq Hdb.
  destruct req as [body | a | body | body | a]; simpl in Hroute, Hreq.
  - destruct src; try discriminate; injection Hroute as <-.
    + eapply register_nonnegative; eauto using Blockchain_register_outcome.
    + eapply register_nonnegative; eauto using Validated_register_outcome.
  - assert (h = Blockchain.getBalance a)
      by (destruct src; injection Hroute as <-; reflexivity).
    subst h. now rewrite getBalance_reads.
  - injection Hroute as <-. now apply send_nonnegative.
  - injection Hroute as <-. now apply mine_nonnegative.
  - assert (h = Blockchain.getTransactions a)
      by (destruct src; try discriminate; injection Hroute as <-; reflexivity).
    subst h. now rewrite getTransactions_reads.
Qed.

(** C4, as the code has it.  Registration stores the initial balance the
    request carries and a transfer is checked against the balance of the
    sender only, so: when no balance of the store is negative and the
    request carries no negative amount (the [initialBalance] of a
    registration, the [amount] of a transfer), no balance is negative after
    the handler of the request has run on its own.  This covers all five
    routes; reward issuance and the two reads carry no amount. *)
Theorem balances_stay_nonnegative
  (src : Source) (req : Request) (now : Z) (h : Async Response) (db : Db) :
  route src req now = Some h ->
  amounts_nonnegative req ->
  nonnegative (users db) ->
  nonnegative (users (snd (run h db))).
Proof.
  apply route_nonnegative.
Qed.

Lemma balances_stay_nonnegative_witness :
  nonnegative
    (users (snd (run (send part_000
                        (mkSendBody (Some "alice") (Some "bob") (Some 100)) 3)
                     alice_bob))).
Proof.
  apply (balances_stay_nonnegative part_000
           (PostTransactionsSend
              (mkSendBody (Some "alice") (Some "bob") (Some 100)))
           3 _ alice_bob).
  - reflexivity.
  - simpl. intros a H. injection H as <-. lia.
  - now apply nonnegativeb_spec.
Defined.

(** C4 fails as stated: registration with [initialBalance = -5] succeeds in
    [blockchain.js] and in [part_000] and creates an account whose balance
    is -5. *)
Lemma registration_creates_negative_balance :
  let body := mkRegisterBody (Some "carol") (Some (-5)) in
  let out1 := run (Blockchain.register body 9) alice_bob in
  let out2 := run (Validated.register body 9) alice_bob in
  nonnegative (users alice_bob)
  /\ status (fst out1) = 201 /\ balanceOf "carol" (snd out1) = Some (-5)
  /\ status (fst out2) = 201 /\ balanceOf "carol" (snd out2) = Some (-5)
  /\ ~ nonnegative (users (snd out1))
  /\ ~ nonnegative (users (snd out2)).
Proof.
  cbv zeta.
  split; [now apply nonnegativeb_spec|].
  do 4 (split; [reflexivity|]).
  split; intros H; apply nonnegativeb_spec in H; discriminate.
Qed.

(** C4 fails as stated for transfers too: a transfer of -40 from Alice to
    Bob is answered 200 and leaves Bob with -40. *)
Lemma negative_transfer_leaves_negative_balance :
  let out := run (send blockchain_js
                    (mkSendBody (Some "alice") (Some "bob") (Some (-40))) 3)
                 alice_bob in
  status (fst out) = 200
  /\ balanceOf "bob" (snd out) = Some (-40)
  /\ ~ nonnegative (users (snd out)).
Proof.
  cbv zeta. do 2 (split; [reflexivity|]).
  intros H. apply nonnegativeb_spec in H. discriminate.
Qed.

(** ** Non-positive amounts *)






(** ** The transactions of an address *)

Lemma find_sender_or_receiver_app (a : string) (ts : list Transaction) (t : Transaction) :
  find_sender_or_receiver a (ts ++ [t])
  = find_sender_or_receiver a ts
    ++ (if String.eqb (sender t) a || String.eqb (receiver t) a then [t] else []).
Proof.
  unfold find_sender_or_receiver. now rewrite filter_app.
Qed.

Lemma getTransactions_run (a : string) (db : Db) :
  run (Blockchain.getTransactions a) db
  = (match find_sender_or_receiver a (transactions db) with
     | [] => status_json 404 (Message "No transactions found for this user")
     | _ :: _ => json (TransactionList (find_sender_or_receiver a (transactions db)))
     end, db).
Proof.
  unfold Blockchain.getTransactions. simpl.
  now destruct (find_sender_or_receiver a (transactions db)).
Qed.

Lemma route_getTransactions (src : Source) (a : string) (now : Z) (h : Async Response) :
  route src (GetTransactions a) now = Some h -> h = Blockchain.getTransactions a.
Proof.
  destruct src; simpl; intros H; try discriminate; now injection H as <-.
Qed.

(** C8 fails as stated: with no transfer in the log, the query for "alice"
    is answered 404 with a message, not 200 with an empty list, in both
    files that have the route. *)
Lemma query_without_transfers_is_404 :
  find_sender_or_receiver "alice" (transactions alice_bob) = []
  /\ route blockchain_js (GetTransactions "alice") 0
     = Some (Blockchain.getTransactions "alice")
  /\ route part_000 (GetTransactions "alice") 0
     = Some (Blockchain.getTransactions "alice")
  /\ fst (run (Blockchain.getTransactions "alice") alice_bob)
     = status_json 404 (Message "No transactions found for this user")
  /\ fst (run (Blockchain.getTransactions "alice") alice_bob)
     <> json (TransactionList []).
Proof.
  repeat split. discriminate.
Qed.

(** C8, as the code has it.  When no transfer involving X is in the log,
    the query for X is answered 404 "No transactions found for this user"
    (an error, not an empty list) and changes nothing.  After a successful
    transfer from X to Y the query for X is answered 200 with the transfers
    that involved X before, followed by the new one, once: with none before,
    the answer is the list of that one transfer. *)
Theorem query_by_participant
  (src : Source) (h : Async Response) (X : string) (db : Db) (now0 : Z) :
  route src (GetTransactions X) now0 = Some h ->
  (find_sender_or_receiver X (transactions db) = [] ->
   run h db
   = (status_json 404 (Message "No transactions found for this user"), db))
  /\ (forall Y a now,
        let out := run (send src (mkSendBody (Some X) (Some Y) (Some a)) now) db in
        status (fst out) = 200 ->
        run h (snd out)
        = (json (TransactionList
                   (find_sender_or_receiver X (transactions db)
                    ++ [mkTransaction X Y a now])),
           snd out)).
Proof.
  intros Hroute. apply route_getTransactions in Hroute. subst h. split.
  - intros Hnone. now rewrite getTransactions_run, Hnone.
  - intros Y a now out Hok. unfold out in *. clear out.
    rewrite getTransactions_run.
    destruct (send_outcome_run src (mkSendBody (Some X) (Some Y) (Some a)) now db)
      as [res Hres | s r a' su ru Es _ Er _ Ea _ _ _ _ _].
    + exfalso. simpl in Hok. destruct Hres as [E|E]; rewrite E in Hok; discriminate.
    + simpl in Es, Er, Ea.
      injection Es as <-. injection Er as <-. injection Ea as <-.
      cbn [snd transactions].
      rewrite find_sender_or_receiver_app. cbn [sender receiver].
      rewrite String.eqb_refl. cbn [orb].
      now destruct (find_sender_or_receiver X (transactions db)).
Qed.

Lemma query_by_participant_witness :
  run (Blockchain.getTransactions "alice") alice_bob
  = (status_json 404 (Message "No transactions found for this user"), alice_bob)
  /\ fst (run (Blockchain.getTransactions "alice")
            (snd (run (send blockchain_js
                         (mkSendBody (Some "alice") (Some "bob") (Some 40)) 3)
                      alice_bob)))
     = json (TransactionList [mkTransaction "alice" "bob" 40 3]).
Proof.
  destruct (query_by_participant blockchain_js
              (Blockchain.getTransactions "alice") "alice" alice_bob 0
              eq_refl) as [Hnone Hone].
  split.
  - apply Hnone. reflexivity.
  - rewrite (Hone "bob" 40 3 eq_refl). reflexivity.
Defined.

(** ** Concurrent handlers *)

Lemma interleavings_Return_l {A B : Type} (a : A) (q : Async B) (db : Db) :
  interleavings (Return a) q db = [(a, fst (run q db), snd (run q db))].
Proof.
  destruct q; simpl; [reflexivity|].
  now destruct (exec op db) as [r db']; destruct (run (k r) db').
Qed.

Lemma interleavings_Return_r {A B : Type} (p : Async A) (b : B) (db : Db) :
  interleavings p (Return b) db = [(fst (run p db), b, snd (run p db))].
Proof.
  destruct p; simpl; [reflexivity|].
  now destruct (exec op db) as [r db']; destruct (run (k r) db').
Qed.

Lemma interleavings_Await {A B R R' : Type}
  (op : Op R) (k : R -> Async A) (op' : Op R') (k' : R' -> Async B) (db : Db) :
  interleavings (Await op k) (Await op' k') db
  = interleavings (k (fst (exec op db))) (Await op' k') (snd (exec op db))
    ++ interleavings (Await op k) (k' (fst (exec op' db))) (snd (exec op' db)).
Proof.
  simpl. destruct (exec op db), (exec op' db). reflexivity.
Qed.

Lemma serializable_Return_l {A B : Type} (a : A) (q : Async B) (db : Db) :
  serializable (Return a) q db.
Proof.
  intros o. rewrite interleavings_Return_l. intros [<-|[]]. left.
  unfold serial. simpl. now destruct (run q db).
Qed.

Lemma serializable_Return_r {A B : Type} (p : Async A) (b : B) (db : Db) :
  serializable p (Return b) db.
Proof.
  intros o. rewrite interleavings_Return_r. intros [<-|[]]. left.
  unfold serial. now destruct (run p db).
Qed.

Lemma findOne_updateOne_inc (a b : string) (d : Z) (us : list User) :
  findOne b (updateOne_inc a d us) = option_map (incremented b a d) (findOne b us).
Proof.
  unfold incremented. destruct (String.eqb b a) eqn:E.
  - apply String.eqb_eq in E. subst b.
    destruct (findOne a us) as [u|] eqn:F; simpl.
    + now apply findOne_updateOne_inc_same.
    + now rewrite updateOne_inc_missing.
  - apply String.eqb_neq in E. rewrite findOne_updateOne_inc_other by exact E.
    now destruct (findOne b us).
Qed.

Lemma findOne_insert (b : string) (u : User) (us : list User) :
  findOne b (us ++ [u])
  = match findOne b us with
    | Some x => Some x
    | None => if String.eqb (address u) b then Some u else None
    end.
Proof.
  induction us as [|x rest IH]; simpl; [reflexivity|].
  now destruct (String.eqb (address x) b).
Qed.

(** Increments of two different accounts commute.  Two increments of one
    account need not: each rounds. *)
Lemma updateOne_inc_comm (a b : string) (d e : Z) (us : list User) :
  a <> b ->
  updateOne_inc a d (updateOne_inc b e us)
  = updateOne_inc b e (updateOne_inc a d us).
Proof.
  intros Hne.
  induction us as [|x rest IH]; simpl; [reflexivity|].
  destruct (String.eqb (address x) b) eqn:Eb;
    destruct (String.eqb (address x) a) eqn:Ea; simpl; rewrite ?Ea, ?Eb.
  - apply String.eqb_eq in Ea, Eb. congruence.
  - reflexivity.
  - reflexivity.
  - now rewrite IH.
Qed.

Lemma updateOne_inc_insert (a : string) (d : Z) (u : User) (us : list User) :
  updateOne_inc a d (us ++ [u])
  = match findOne a us with
    | Some _ => updateOne_inc a d us ++ [u]
    | None => us ++ updateOne_inc a d [u]
    end.
Proof.
  induction us as [|x rest IH]; simpl; [reflexivity|].
  destruct (String.eqb (address x) a); [reflexivity|].
  rewrite IH. now destruct (findOne a rest).
Qed.

(** Symbolic execution of a pair of handlers: unfold the interleavings one
    store operation at a time and push every read through the writes that
    precede it. *)
Ltac interleave :=
  repeat (rewrite ?interleavings_Await, ?interleavings_Return_l,
                  ?interleavings_Return_r;
          cbn [run exec fst snd users transactions blocks option_map];
          rewrite ?findOne_updateOne_inc, ?findOne_insert,
                  ?updateOne_inc_insert).

(** Each execution listed in the hypothesis is one of the two serial ones,
    once the increments of accounts known to differ are commuted. *)
Ltac commute_increments :=
  repeat match goal with
         | H : ?a <> ?b |- _ => rewrite !(updateOne_inc_comm a b _ _ _ H)
         end.

Ltac serial_or_reverse :=
  let H := fresh "H" in
  intros H; cbn [In app] in H;
  repeat (destruct H as [<-|H]);
  try contradiction;
  commute_increments;
  first [left; reflexivity | right; reflexivity].

Ltac use_facts :=
  repeat match goal with
         | H : findOne ?a ?l = _ |- context [findOne ?a ?l] => rewrite H
         | H : Z.ltb ?p ?q = _ |- context [Z.ltb ?p ?q] => rewrite H
         | H : String.eqb ?p ?q = _ |- context [String.eqb ?p ?q] => rewrite H
         | H : find_sender_or_receiver ?a ?l = _
           |- context [find_sender_or_receiver ?a ?l] => rewrite H
         end.

Ltac settle :=
  repeat (progress (interleave; unfold incremented; use_facts;
                    rewrite ?find_sender_or_receiver_app, ?String.eqb_refl;
                    cbn [option_map address balance sender receiver updateOne_inc
                         app List.length Nat.eqb orb])).

Ltac split_checks :=
  repeat (settle;
          match goal with
          | |- context [Z.ltb ?p ?q] => destruct (Z.ltb p q) eqn:?
          end);
  settle.

(** Two reward issuances of three store operations each interleave in 20
    ways. *)
Example interleavings_of_two_rewards :
  List.length (interleavings (mine_core "miner" 7) (mine_core "alice" 8) with_miner)
  = 20%nat.
Proof. reflexivity. Qed.

Lemma mine_mine (m1 m2 : string) (n1 n2 : Z) (db : Db) :
  serializable (mine_core m1 n1) (mine_core m2 n2) db.
Proof.
  intros o. unfold serial, serial_rev, mine_core.
  destruct (String.eqb_spec m1 m2) as [->|Hne].
  - destruct (findOne m2 (users db)) as [u2|] eqn:F2;
      settle; serial_or_reverse.
  - destruct (findOne m1 (users db)) as [u1|] eqn:F1;
      destruct (findOne m2 (users db)) as [u2|] eqn:F2;
      settle; serial_or_reverse.
Qed.

(** A check that passes on a balance passes on the balance after a reward,
    when the amount is a double: rounding does not cross a double. *)
Lemma check_after_reward (x a : Z) :
  is_double a -> (x <? a) = false -> (double_add x 10 <? a) = false.
Proof.
  intros Ha Hx. apply Z.ltb_ge in Hx. apply Z.ltb_ge.
  apply round_double_lower; [exact Ha | lia].
Qed.

Lemma mine_send (m : string) (n : Z) (s r : string) (a n' : Z) (db : Db) :
  is_double a -> ~ (s = m /\ r = m) ->
  serializable (mine_core m n) (send_core s r a n') db.
Proof.
  intros Ha Hself o. unfold serial, serial_rev, mine_core, send_core.
  destruct (String.eqb_spec s m) as [Hs|Hs];
    destruct (String.eqb_spec r m) as [Hr|Hr]; [now elim Hself | | |].
  - subst s. assert (Hr' : String.eqb r m = false) by now apply String.eqb_neq.
    assert (Hr'' : String.eqb m r = false) by now rewrite String.eqb_sym.
    destruct (findOne m (users db)) as [um|] eqn:Fm;
      destruct (findOne r (users db)) as [ur|] eqn:Fr;
      try (settle; serial_or_reverse; fail).
    destruct (balance um <? a) eqn:Hlt.
    + destruct (double_add (balance um) 10 <? a) eqn:Hlt';
        settle; serial_or_reverse.
    + pose proof (check_after_reward _ _ Ha Hlt) as Hlt'.
      settle; serial_or_reverse.
  - subst r. assert (Hs' : String.eqb s m = false) by now apply String.eqb_neq.
    assert (Hs'' : String.eqb m s = false) by now rewrite String.eqb_sym.
    destruct (findOne m (users db)) as [um|] eqn:Fm;
      destruct (findOne s (users db)) as [us|] eqn:Fs;
      try destruct (balance us <? a) eqn:Hlt;
      settle; serial_or_reverse.
  - assert (Hms : m <> s) by congruence. assert (Hmr : m <> r) by congruence.
    clear Hs Hr.
    assert (Hs' : String.eqb s m = false) by now apply String.eqb_neq.
    assert (Hs'' : String.eqb m s = false) by now apply String.eqb_neq.
    assert (Hr' : String.eqb r m = false) by now apply String.eqb_neq.
    assert (Hr'' : String.eqb m r = false) by now apply String.eqb_neq.
    destruct (findOne m (users db)) as [um|] eqn:Fm;
      destruct (findOne s (users db)) as [us|] eqn:Fs;
      destruct (findOne r (users db)) as [ur|] eqn:Fr;
      try destruct (balance us <? a) eqn:Hlt;
      settle; serial_or_reverse.
Qed.

Lemma mine_register (m : string) (n : Z) (a : string) (ib : option Z) (n' : Z) (db : Db) :
  serializable (mine_core m n) (register_core a ib n') db.
Proof.
  intros o. unfold serial, serial_rev, mine_core, register_core.
  destruct (String.eqb_spec a m) as [->|Hne].
  - destruct (findOne m (users db)) as [um|] eqn:Fm;
      settle; serial_or_reverse.
  - apply String.eqb_neq in Hne.
    destruct (findOne m (users db)) as [um|] eqn:Fm;
      destruct (findOne a (users db)) as [ua|] eqn:Fa;
      settle; serial_or_reverse.
Qed.

Lemma mine_getBalance (m : string) (n : Z) (a : string) (db : Db) :
  serializable (mine_core m n) (Blockchain.getBalance a) db.
Proof.
  intros o. unfold serial, serial_rev, mine_core, Blockchain.getBalance.
  destruct (String.eqb a m) eqn:Eam;
    destruct (findOne m (users db)) as [um|] eqn:Fm;
    destruct (findOne a (users db)) as [ua|] eqn:Fa;
    settle; serial_or_reverse.
Qed.

Lemma mine_getTransactions (m : string) (n : Z) (a : string) (db : Db) :
  serializable (mine_core m n) (Blockchain.getTransactions a) db.
Proof.
  intros o. unfold serial, serial_rev, mine_core, Blockchain.getTransactions.
  destruct (findOne m (users db)) as [um|] eqn:Fm;
    destruct (find_sender_or_receiver a (transactions db)) as [|t ts] eqn:Ft;
    settle; serial_or_reverse.
Qed.

(** Every handler is a response given at once, or its core. *)
Lemma mine_resolved (src : Source) (body : MineBody) (now : Z) :
  (exists res, mine src body now = Return res /\ status res = 400)
  \/ (exists m, mine_minerAddress body = Some m
                /\ mine src body now = mine_core m now).
Proof.
  destruct body as [[m|]];
    destruct src; simpl;
    unfold Blockchain.mine, Validated.mine, Validated.validate_mine,
           Validated.check; simpl;
    try (left; eexists; split; reflexivity);
    destruct (String.eqb m ""); simpl;
    try (left; eexists; split; reflexivity);
    right; exists m; split; reflexivity.
Qed.

Lemma send_core_of_body (src : Source) (body : SendBody) (now : Z) :
  (exists res, send src body now = Return res)
  \/ (exists s r a,
        send_sender body = Some s /\ send_receiver body = Some r
        /\ send_amount body = Some a
        /\ send src body now = send_core s r a now).
Proof.
  destruct body as [[s|] [r|] [a|]];
    destruct src; simpl;
    unfold Blockchain.send, Validated.send, Validated.validate_send,
           Validated.check, Validated.isNumeric; simpl;
    repeat match goal with
           | |- context [String.eqb ?x ""] => destruct (String.eqb x "")
           | |- context [Z.eqb ?x 0] => destruct (Z.eqb x 0)
           | |- context [Z.ltb (Z.abs ?x) ?y] => destruct (Z.ltb (Z.abs x) y)
           end; simpl;
    try (left; eexists; reflexivity);
    right; exists s, r, a; repeat split; reflexivity.
Qed.

Lemma register_resolved (src : Source) (body : RegisterBody) (now : Z)
  (h : Async Response) :
  route src (PostUsersRegister body) now = Some h ->
  (exists res, h = Return res)
  \/ (exists a, h = register_core a (register_initialBalance body) now).
Proof.
  destruct body as [[a|] ib];
    destruct src; simpl; intros H; try discriminate; injection H as <-;
    unfold Blockchain.register, Validated.register,
           Validated.validate_register, Validated.check; simpl;
    try (left; eexists; reflexivity);
    destruct (String.eqb a ""); simpl;
    try (left; eexists; reflexivity);
    destruct ib as [n|]; simpl;
    try (left; eexists; reflexivity);
    try destruct (Z.eqb n 0);
    try match goal with
        | |- context [Z.ltb (Z.abs ?x) ?y] => destruct (Z.ltb (Z.abs x) y)
        end; simpl;
    try (left; eexists; reflexivity);
    right; exists a; reflexivity.
Qed.

(** *** No update is lost *)







Lemma adds_budget {A : Type} (P : Db -> Prop) (p : Async A) (f : A -> Z) (c : Z) :
  adds P p f c -> (exists db, P db) -> 0 <= c.
Proof.
  intros [P0 a f0 c0 _ Hc | P0 R op k f0 c0 delta Q Hd _ _ _ _ | P0 p0 f0 c0 Habs]
    [db HP]; [exact Hc | lia | now elim (Habs db)].
Qed.











(** Beyond that range an increment can be lost to rounding even with
    nothing interleaved: a reward to a miner who holds [2 ^ 54] adds 8. *)
Lemma reward_at_2_54_adds_8 :
  let out := run (mine blockchain_js (mkMineBody (Some "alice")) 5) (alice_at (2 ^ 54)) in
  status (fst out) = 200
  /\ total (users (snd out)) = total (users (alice_at (2 ^ 54))) + 8.
Proof.
  cbv zeta. split; reflexivity.
Qed.

(** *** Serializability *)

(** C3, as the code has it.  No handler takes a lock or opens a
    transaction; each store operation is atomic and the handlers interleave
    between them.  Reward issuance is serializable all the same with
    whatever single request runs concurrently with it (a registration, a
    balance read, a transfer whose amount is a double, another reward
    issuance, a transactions query), unless that request is a transfer from
    the miner to the miner: every interleaving of their store operations
    gives the responses and the final store of one of the two serial
    orders. *)
Theorem reward_issuance_serializable
  (src : Source) (mbody : MineBody) (now : Z)
  (req : Request) (now' : Z) (h : Async Response) (db : Db) :
  route src req now' = Some h ->
  no_self_transfer_of (mine_minerAddress mbody) req ->
  serializable (mine src mbody now) h db.
Proof.
  intros Hroute Hreq.
  destruct (mine_resolved src mbody now) as [(res & -> & _) | (m & Em & ->)];
    [apply serializable_Return_l|].
  destruct req as [body | a | body | body | a].
  - destruct (register_resolved src body now' h Hroute) as [[res ->] | [a ->]];
      [apply serializable_Return_r | apply mine_register].
  - assert (h = Blockchain.getBalance a)
      by (destruct src; injection Hroute as <-; reflexivity).
    subst h. apply mine_getBalance.
  - injection Hroute as <-. destruct Hreq as [Hself Hdouble].
    destruct (send_core_of_body src body now')
      as [[res ->] | (s & r & a & Es & Er & Ea & ->)];
      [apply serializable_Return_r |].
    apply mine_send; [now apply Hdouble|].
    intros [-> ->]. apply Hself. now rewrite Em.
  - injection Hroute as <-.
    destruct (mine_resolved src body now') as [(res & -> & _) | (m' & _ & ->)];
      [apply serializable_Return_r | apply mine_mine].
  - apply route_getTransactions in Hroute. subst h.
    apply mine_getTransactions.
Qed.

Lemma reward_issuance_serializable_witness :
  serializable (mine blockchain_js (mkMineBody (Some "alice")) 5)
               (send blockchain_js
                  (mkSendBody (Some "alice") (Some "bob") (Some 105)) 6)
               alice_bob.
Proof.
  apply (reward_issuance_serializable blockchain_js
           (mkMineBody (Some "alice")) 5
           (PostTransactionsSend
              (mkSendBody (Some "alice") (Some "bob") (Some 105))) 6
           _ alice_bob).
  - reflexivity.
  - split.
    + intros [_ H]. discriminate H.
    + intros a H. injection H as <-. reflexivity.
Defined.

(** A reward issued to the miner between the debit and the credit of a
    transfer from the miner to the miner can leave a balance that neither
    serial order leaves: at 9558257807069588 the debit of 1, the reward and
    the credit of 1 round to 9558257807069600, where the serial orders give
    9558257807069596 and 9558257807069598. *)
Lemma reward_inside_self_transfer :
  let reward := mine blockchain_js (mkMineBody (Some "alice")) 5 in
  let self := send blockchain_js (mkSendBody (Some "alice") (Some "alice") (Some 1)) 6 in
  let db := alice_at 9558257807069588 in
  existsb (fun o => match balanceOf "alice" (snd o) with
                    | Some b => b =? 9558257807069600
                    | None => false
                    end) (interleavings reward self db) = true
  /\ balanceOf "alice" (snd (serial reward self db)) = Some 9558257807069596
  /\ balanceOf "alice" (snd (serial_rev reward self db)) = Some 9558257807069598
  /\ ~ serializable reward self db.
Proof.
  cbv zeta.
  assert (E : existsb (fun o => match balanceOf "alice" (snd o) with
                                | Some b => b =? 9558257807069600
                                | None => false
                                end)
                (interleavings
                   (mine blockchain_js (mkMineBody (Some "alice")) 5)
                   (send blockchain_js
                      (mkSendBody (Some "alice") (Some "alice") (Some 1)) 6)
                   (alice_at 9558257807069588)) = true) by (vm_compute; reflexivity).
  split; [exact E|].
  split; [vm_compute; reflexivity|].
  split; [vm_compute; reflexivity|].
  intros Hser. apply existsb_exists in E. destruct E as (o & Hin & Ho).
  destruct (Hser o Hin) as [-> | ->]; vm_compute in Ho; discriminate.
Qed.

(** C3 fails as stated.  Alice holds 100; two concurrent transfers of 100
    from Alice to Bob have an interleaving in which both pass the balance
    check, both are answered 200 and Alice is left with -100, whereas in
    both serial orders the second transfer is answered 400: the pair is not
    serializable.  And a balance read that runs concurrently with a transfer
    of 40 from Alice to herself can see 60, between the debit and the
    credit, whereas it sees 100 in both serial orders. *)
Lemma concurrent_transfers_double_spend :
  let t1 := send blockchain_js (mkSendBody (Some "alice") (Some "bob") (Some 100)) 3 in
  let t2 := send blockchain_js (mkSendBody (Some "alice") (Some "bob") (Some 100)) 4 in
  let self := send blockchain_js (mkSendBody (Some "alice") (Some "alice") (Some 40)) 3 in
  let read := Blockchain.getBalance "alice" in
  existsb (both_succeeded_overdrawn "alice") (interleavings t1 t2 alice_bob) = true
  /\ both_succeeded_overdrawn "alice" (serial t1 t2 alice_bob) = false
  /\ both_succeeded_overdrawn "alice" (serial_rev t1 t2 alice_bob) = false
  /\ ~ serializable t1 t2 alice_bob
  /\ existsb (read_balance 60) (interleavings self read alice_bob) = true
  /\ read_balance 100 (serial self read alice_bob) = true
  /\ read_balance 100 (serial_rev self read alice_bob) = true.
Proof.
  cbv zeta.
  assert (E : existsb (both_succeeded_overdrawn "alice")
                (interleavings
                   (send blockchain_js
                      (mkSendBody (Some "alice") (Some "bob") (Some 100)) 3)
                   (send blockchain_js
                      (mkSendBody (Some "alice") (Some "bob") (Some 100)) 4)
                   alice_bob) = true) by (vm_compute; reflexivity).
  split; [exact E|].
  split; [vm_compute; reflexivity|].
  split; [vm_compute; reflexivity|].
  split; [|repeat split; vm_compute; reflexivity].
  intros Hser. apply existsb_exists in E. destruct E as (o & Hin & Ho).
  destruct (Hser o Hin) as [-> | ->]; vm_compute in Ho; discriminate.
Qed.

(** ** The application as a whole *)

Lemma strict_neq_false (x y : option string) :
  strict_neq x y = false <-> x = y.
Proof.
  destruct x as [a|], y as [b|]; simpl; split; try congruence; try discriminate.
  - intros H. apply negb_false_iff in H. apply String.eqb_eq in H. now subst.
  - intros H. injection H as ->. now rewrite String.eqb_refl.
Qed.

Lemma route_effect (src : Source) (req : Request) (now : Z)
  (h : Async Response) (db : Db) :
  route src req now = Some h -> effect db (run h db).
Proof.
  intros Hroute.
  destruct req as [body | a | body | body | a]; simpl in Hroute.
  - assert (O : register_outcome body now db (run h db)).
    { destruct src; try discriminate; injection Hroute as <-;
        [apply Blockchain_register_outcome | apply Validated_register_outcome]. }
    destruct O as [res Hres | a Ha Hne Fa newUser].
    + apply effect_none. rewrite Hres. discriminate.
    + now apply effect_register.
  - assert (h = Blockchain.getBalance a)
      by (destruct src; injection Hroute as <-; reflexivity).
    subst h. unfold Blockchain.getBalance. simpl.
    destruct (findOne a (users db)); simpl; apply effect_none; discriminate.
  - injection Hroute as <-.
    destruct (send_outcome_run src body now db)
      as [res Hres | s r a su ru _ Hs _ Hr _ _ _ Fs Fr Hle].
    + apply effect_none. destruct Hres as [E|E]; rewrite E; discriminate.
    + now apply effect_send with su ru.
  - injection Hroute as <-.
    destruct (mine_outcome_run src body now db) as [res Hres | m mu _ Hm Fm].
    + apply effect_none. destruct Hres as [E|E]; rewrite E; discriminate.
    + now apply effect_mine with mu.
  - apply (route_getTransactions src a now) in Hroute. subst h.
    rewrite getTransactions_run.
    destruct (find_sender_or_receiver a (transactions db));
      apply effect_none; discriminate.
Qed.

Lemma app_effect (src : Source) (API_KEY apiKey : option string)
  (req : Request) (now : Z) (h : Async Response) (db : Db) :
  app src API_KEY apiKey req now = Some h -> effect db (run h db).
Proof.
  unfold app, apiKeyMiddleware.
  destruct (strict_neq apiKey API_KEY).
  - intros H. injection H as <-. simpl. apply effect_none. discriminate.
  - apply route_effect.
Qed.

(** A property that every effect keeps holds after every history. *)
Lemma serve_invariant (P : Db -> Prop) :
  (forall db o, P db -> effect db o -> P (snd o)) ->
  forall src API_KEY reqs db, P db -> P (snd (serve src API_KEY reqs db)).
Proof.
  intros Hstep src API_KEY reqs.
  induction reqs as [|i rest IH]; intros db HP; simpl; [exact HP|].
  destruct (app src API_KEY (x_api_key i) (asked i) (arrival i)) as [h|] eqn:E;
    [|specialize (IH db HP); now destruct (serve src API_KEY rest db)].
  pose proof (Hstep db _ HP (app_effect _ _ _ _ _ h db E)) as HP1.
  destruct (run h db) as [res db1]. simpl in HP1.
  specialize (IH db1 HP1). now destruct (serve src API_KEY rest db1).
Qed.

(** A reflexive and transitive relation that every effect respects relates
    the store before a history to the store after it. *)
Lemma serve_relation (R : Db -> Db -> Prop) :
  (forall db, R db db) ->
  (forall db1 db2 db3, R db1 db2 -> R db2 db3 -> R db1 db3) ->
  (forall db o, effect db o -> R db (snd o)) ->
  forall src API_KEY reqs db, R db (snd (serve src API_KEY reqs db)).
Proof.
  intros Hrefl Htrans Hstep src API_KEY reqs.
  induction reqs as [|i rest IH]; intros db; simpl; [apply Hrefl|].
  destruct (app src API_KEY (x_api_key i) (asked i) (arrival i)) as [h|] eqn:E;
    [|specialize (IH db); now destruct (serve src API_KEY rest db)].
  pose proof (Hstep db _ (app_effect _ _ _ _ _ h db E)) as H1.
  destruct (run h db) as [res db1]. simpl in H1.
  specialize (IH db1). destruct (serve src API_KEY rest db1) as [ress db2].
  simpl in *. now apply Htrans with db1.
Qed.



(** The middleware lets through the requests whose header is the
    configured key, and then the route decides.  The comparison is between
    two values that may both be [undefined]: when no API key is configured,
    a request without the header is let through. *)
Lemma right_api_key_reaches_route
  (src : Source) (API_KEY : option string) (req : Request) (now : Z) :
  app src API_KEY API_KEY req now = route src req now.
Proof.
  unfold app, apiKeyMiddleware.
  now rewrite (proj2 (strict_neq_false API_KEY API_KEY) eq_refl).
Qed.

(** ** Invariants of the store along a history of requests *)

Lemma findOne_None_iff (a : string) (us : list User) :
  findOne a us = None <-> ~ In a (map address us).
Proof.
  induction us as [|x rest IH]; simpl; [tauto|].
  destruct (String.eqb_spec (address x) a) as [E|E].
  - split; [discriminate|]. intros H. elim H. now left.
  - rewrite IH. tauto.
Qed.

Lemma map_identity_updateOne_inc (a : string) (d : Z) (us : list User) :
  map identity (updateOne_inc a d us) = map identity us.
Proof.
  induction us as [|x rest IH]; simpl; [reflexivity|].
  destruct (String.eqb (address x) a); simpl; [reflexivity|]. now rewrite IH.
Qed.

Lemma map_address_updateOne_inc (a : string) (d : Z) (us : list User) :
  map address (updateOne_inc a d us) = map address us.
Proof.
  induction us as [|x rest IH]; simpl; [reflexivity|].
  destruct (String.eqb (address x) a); simpl; [reflexivity|]. now rewrite IH.
Qed.

Lemma findOne_same_addresses (a : string) (us us' : list User) :
  map address us' = map address us ->
  findOne a us <> None -> findOne a us' <> None.
Proof.
  intros E. rewrite !findOne_None_iff, E. tauto.
Qed.

Lemma findOne_more_addresses (a : string) (us l : list User) :
  findOne a us <> None -> findOne a (us ++ l) <> None.
Proof.
  rewrite !findOne_None_iff, map_app, in_app_iff. tauto.
Qed.

Lemma users_wellformed_effect (db : Db) (o : Response * Db) :
  users_wellformed (users db) -> effect db o -> users_wellformed (users (snd o)).
Proof.
  intros [Hnd Hne] [res _ | a b now Ha Fa | s r a now su ru _ _ _ _ _ | m now mu _ _];
    cbn [snd users]; unfold users_wellformed;
    rewrite ?map_address_updateOne_inc; try (split; assumption).
  rewrite map_app. cbn [map address]. split.
  - apply NoDup_app.
    + exact Hnd.
    + constructor; [intros [] | constructor].
    + intros x Hx [<-|[]]. now apply findOne_None_iff in Fa.
  - apply Forall_app. split; [exact Hne | now constructor].
Qed.

Lemma records_wellformed_grow (db : Db) (us' : list User) (ts : list Transaction)
  (bs : list Block) :
  (forall a, findOne a (users db) <> None -> findOne a us' <> None) ->
  records_wellformed db ->
  Forall (fun t => findOne (sender t) us' <> None
                   /\ findOne (receiver t) us' <> None) ts ->
  Forall (fun b => findOne (miner b) us' <> None /\ reward b = 10) bs ->
  records_wellformed (mkDb us' (transactions db ++ ts) (blocks db ++ bs)).
Proof.
  intros Hkeep [Ht Hb] Hts Hbs. split; cbn [users transactions blocks].
  - apply Forall_app. split; [|exact Hts].
    eapply Forall_impl; [|exact Ht]. intros t [H1 H2]. auto.
  - apply Forall_app. split; [|exact Hbs].
    eapply Forall_impl; [|exact Hb]. intros b [H1 H2]. auto.
Qed.

Lemma records_wellformed_effect (db : Db) (o : Response * Db) :
  records_wellformed db -> effect db o -> records_wellformed (snd o).
Proof.
  intros Hwf [res _ | a b now Ha Fa | s r a now su ru _ _ Fs Fr _ | m now mu _ Fm];
    cbn [snd]; [exact Hwf | | |].
  - rewrite <- (app_nil_r (transactions db)), <- (app_nil_r (blocks db)).
    apply records_wellformed_grow; auto using findOne_more_addresses.
  - rewrite <- (app_nil_r (blocks db)).
    assert (K : forall x, findOne x (users db) <> None ->
                          findOne x (updateOne_inc r a (updateOne_inc s (- a) (users db))) <> None).
    { intros x. apply findOne_same_addresses.
      now rewrite !map_address_updateOne_inc. }
    apply records_wellformed_grow; auto.
    constructor; [|constructor]. cbn [sender receiver].
    split; apply K; congruence.
  - rewrite <- (app_nil_r (transactions db)).
    assert (K : forall x, findOne x (users db) <> None ->
                          findOne x (updateOne_inc m 10 (users db)) <> None).
    { intros x. apply findOne_same_addresses.
      now rewrite !map_address_updateOne_inc. }
    apply records_wellformed_grow; auto.
    constructor; [|constructor]. cbn [miner reward].
    split; [apply K; congruence | reflexivity].
Qed.

(** X2.  Whatever requests are served one after the other, with or without
    the right API key, in any of the three files: when the addresses of the
    store are unique and non-empty, and every record names existing
    accounts and every block carries the reward 10, the same holds after
    the history.  So registration never creates a second account for an
    address nor one with an empty address, and a transfer or a reward is
    never recorded for an address that has no account. *)
Theorem history_keeps_store_wellformed
  (src : Source) (API_KEY : option string) (reqs : list Incoming) (db : Db) :
  users_wellformed (users db) /\ records_wellformed db ->
  users_wellformed (users (snd (serve src API_KEY reqs db)))
  /\ records_wellformed (snd (serve src API_KEY reqs db)).
Proof.
  apply (serve_invariant
           (fun db => users_wellformed (users db) /\ records_wellformed db)).
  intros db0 o [H1 H2] He. split.
  - now apply users_wellformed_effect with db0.
  - now apply records_wellformed_effect with db0.
Qed.

Lemma emptyDb_wellformed :
  users_wellformed (users emptyDb) /\ records_wellformed emptyDb.
Proof.
  repeat split; simpl; constructor.
Qed.

Lemma history_keeps_store_wellformed_witness :
  let reqs :=
    [mkIncoming (Some "k") (PostUsersRegister (mkRegisterBody (Some "alice") (Some 100))) 1;
     mkIncoming (Some "k") (PostUsersRegister (mkRegisterBody (Some "alice") (Some 7))) 2;
     mkIncoming (Some "k") (PostUsersRegister (mkRegisterBody (Some "bob") (Some 1))) 3;
     mkIncoming None (PostMine (mkMineBody (Some "bob"))) 4;
     mkIncoming (Some "k") (PostTransactionsSend
                              (mkSendBody (Some "alice") (Some "bob") (Some 40))) 5] in
  map address (users (snd (serve blockchain_js (Some "k") reqs emptyDb)))
  = ["alice"; "bob"]
  /\ users_wellformed (users (snd (serve blockchain_js (Some "k") reqs emptyDb)))
  /\ records_wellformed (snd (serve blockchain_js (Some "k") reqs emptyDb)).
Proof.
  cbv zeta. split; [reflexivity|].
  apply (history_keeps_store_wellformed blockchain_js (Some "k") _ emptyDb).
  exact emptyDb_wellformed.
Defined.

Lemma extends_refl (db : Db) : extends db db.
Proof.
  repeat split; exists []; now rewrite app_nil_r.
Qed.

Lemma extends_trans (db1 db2 db3 : Db) :
  extends db1 db2 -> extends db2 db3 -> extends db1 db3.
Proof.
  intros ([t1 T1] & [b1 B1] & [u1 U1]) ([t2 T2] & [b2 B2] & [u2 U2]).
  repeat split.
  - exists (t1 ++ t2). now rewrite T2, T1, app_assoc.
  - exists (b1 ++ b2). now rewrite B2, B1, app_assoc.
  - exists (u1 ++ u2). now rewrite U2, U1, app_assoc.
Qed.

Lemma extends_effect (db : Db) (o : Response * Db) :
  effect db o -> extends db (snd o).
Proof.
  intros [res _ | a b now _ _ | s r a now su ru _ _ _ _ _ | m now mu _ _];
    cbn [snd]; [apply extends_refl | | |];
    repeat split; cbn [users transactions blocks];
    rewrite ?map_identity_updateOne_inc, ?map_app;
    try (exists []; now rewrite app_nil_r);
    eexists; reflexivity.
Qed.

(** X3.  No history of requests deletes, reorders or rewrites anything that
    was recorded: the transactions log and the blocks log after it are the
    logs before it with records appended, and the accounts are the accounts
    before it, in order and with their address and creation time, with new
    accounts appended. *)
Theorem history_only_appends
  (src : Source) (API_KEY : option string) (reqs : list Incoming) (db : Db) :
  extends db (snd (serve src API_KEY reqs db)).
Proof.
  apply (serve_relation extends extends_refl extends_trans extends_effect).
Qed.

(** ** Balances against the records *)









(** *** Histories on which the arithmetic is exact *)

Lemma total_nonnegative (us : list User) : nonnegative us -> 0 <= total us.
Proof.
  unfold nonnegative. induction 1 as [|x rest Hx _ IH]; simpl; lia.
Qed.












(** ** Registration and balance reads *)

Lemma route_register_outcome (src : Source) (body : RegisterBody) (now : Z)
  (h : Async Response) (db : Db) :
  route src (PostUsersRegister body) now = Some h ->
  register_outcome body now db (run h db).
Proof.
  destruct src; simpl; intros H; try discriminate; injection H as <-;
    [apply Blockchain_register_outcome | apply Validated_register_outcome].
Qed.

Lemma serve_keeps_accounts (src : Source) (API_KEY : option string)
  (reqs : list Incoming) (db : Db) (a : string) (u : User) :
  findOne a (users db) = Some u ->
  exists u', findOne a (users (snd (serve src API_KEY reqs db))) = Some u'.
Proof.
  intros F.
  assert (K : findOne a (users (snd (serve src API_KEY reqs db))) <> None).
  { apply (serve_relation
             (fun db1 db2 => findOne a (users db1) <> None
                             -> findOne a (users db2) <> None)); auto.
    - intros db0 o [res _ | x b now _ _ | s r amt now su ru _ _ _ _ _ | m now mu _ _];
        cbn [snd users]; auto using findOne_more_addresses;
        apply findOne_same_addresses; now rewrite !map_address_updateOne_inc.
    - congruence. }
  destruct (findOne a (users (snd (serve src API_KEY reqs db)))) as [u'|];
    [now exists u' | now elim K].
Qed.

(** X6.  An address is registered once.  When an account exists for an
    address, then after any further history of requests a registration for
    that address is answered 400 and leaves the store as it was, in both
    files that have the route. *)
Theorem registered_address_is_taken_for_good
  (src : Source) (API_KEY : option string) (reqs : list Incoming)
  (body : RegisterBody) (now : Z) (h : Async Response) (db : Db)
  (a : string) (u : User) :
  findOne a (users db) = Some u ->
  register_address body = Some a ->
  route src (PostUsersRegister body) now = Some h ->
  let db' := snd (serve src API_KEY reqs db) in
  status (fst (run h db')) = 400 /\ snd (run h db') = db'.
Proof.
  intros F Ha Hroute db'.
  destruct (serve_keeps_accounts src API_KEY reqs db a u F) as [u' F'].
  fold db' in F'.
  destruct (route_register_outcome src body now h db' Hroute)
    as [res Hres | a' Ha' _ Fa' newUser]; simpl; [auto|].
  exfalso. rewrite Ha in Ha'. injection Ha' as <-. congruence.
Qed.

Lemma registered_address_is_taken_for_good_witness :
  let db' := snd (serve blockchain_js None
                    [mkIncoming None (PostMine (mkMineBody (Some "bob"))) 4]
                    alice_bob) in
  let again := Blockchain.register (mkRegisterBody (Some "bob") (Some 500)) 5 in
  status (fst (run again db')) = 400 /\ snd (run again db') = db'.
Proof.
  apply (registered_address_is_taken_for_good blockchain_js None
           [mkIncoming None (PostMine (mkMineBody (Some "bob"))) 4]
           (mkRegisterBody (Some "bob") (Some 500)) 5 _ alice_bob
           "bob" (mkUser "bob" 0 2)); reflexivity.
Defined.

(** X7.  What registration stores is what the balance route reads.  After a
    registration answered 201, [GET /balance/:address] for the registered
    address is answered 200 with the [initialBalance] of the request, or
    with 0 when the request carried none. *)
Theorem registered_balance_is_read_back
  (src : Source) (body : RegisterBody) (now : Z) (h : Async Response) (db : Db) :
  route src (PostUsersRegister body) now = Some h ->
  status (fst (run h db)) = 201 ->
  exists a,
    register_address body = Some a
    /\ run (Blockchain.getBalance a) (snd (run h db))
       = (json (BalanceOf (or_zero (register_initialBalance body))),
          snd (run h db)).
Proof.
  intros Hroute Hok.
  destruct (route_register_outcome src body now h db Hroute)
    as [res Hres | a Ha _ Fa newUser].
  - simpl in Hok. rewrite Hres in Hok. discriminate.
  - exists a. split; [exact Ha|].
    unfold Blockchain.getBalance. cbn [run exec snd fst users].
    rewrite findOne_insert, Fa. subst newUser. cbn [address].
    now rewrite String.eqb_refl.
Qed.

Lemma registered_balance_is_read_back_witness :
  exists a,
    Some "carol" = Some a
    /\ run (Blockchain.getBalance a)
           (snd (run (Validated.register (mkRegisterBody (Some "carol") None) 9)
                     alice_bob))
       = (json (BalanceOf 0),
          snd (run (Validated.register (mkRegisterBody (Some "carol") None) 9)
                   alice_bob)).
Proof.
  apply (registered_balance_is_read_back part_000
           (mkRegisterBody (Some "carol") None) 9 _ alice_bob); reflexivity.
Defined.

(** ** Rewards *)

(** X8.  A [/mine] request that is not answered 200 is answered 400 or 404
    and leaves the store as it was: no balance changes and no block is
    appended.  A request for a miner address without an account is among
    them. *)
Theorem failed_reward_leaves_store_unchanged
  (src : Source) (body : MineBody) (now : Z) (db : Db) :
  status (fst (run (mine src body now) db)) <> 200
  \/ (exists m, mine_minerAddress body = Some m /\ findOne m (users db) = None) ->
  (status (fst (run (mine src body now) db)) = 400
   \/ status (fst (run (mine src body now) db)) = 404)
  /\ snd (run (mine src body now) db) = db.
Proof.
  intros H.
  destruct (mine_outcome_run src body now db) as [res Hres | m mu Hm _ Fm];
    simpl in *; [auto|].
  exfalso. destruct H as [H | (m' & Hm' & Fm')]; [now apply H|].
  rewrite Hm in Hm'. injection Hm' as <-. congruence.
Qed.

Lemma failed_reward_leaves_store_unchanged_witness :
  run (mine part_000 (mkMineBody (Some "nobody")) 3) alice_bob
  = (status_json 404 (Message "Miner does not exist"), alice_bob)
  /\ snd (run (mine part_000 (mkMineBody (Some "nobody")) 3) alice_bob) = alice_bob.
Proof.
  split; [reflexivity|].
  apply (failed_reward_leaves_store_unchanged part_000
           (mkMineBody (Some "nobody")) 3 alice_bob).
  right. exists "nobody". split; reflexivity.
Defined.



(** ** Transfers in general *)



(** A transfer between accounts at the limit of exact integers does not
    move its amount: Bob sends 1 to Alice, who holds [2 ^ 53]; the transfer
    is answered 200, Bob ends with 0 and Alice still with [2 ^ 53]. *)
Lemma transfer_beyond_2_53 :
  let out := run (send part_000 (mkSendBody (Some "bob") (Some "alice") (Some 1)) 3)
                 (alice_at (2 ^ 53)) in
  status (fst out) = 200
  /\ balanceOf "bob" (snd out) = Some 0
  /\ balanceOf "alice" (snd out) = Some (2 ^ 53).
Proof.
  cbv zeta. repeat split; reflexivity.
Qed.



(** ** The files against each other *)



(** Where the files differ: a transfer of [10 ^ 21] from an account that
    holds it is answered 400 by [part_000], whose validator reads the
    number as rendered, [1e+21], and 200 by the other two. *)
Lemma files_differ_from_1e21 :
  let body := mkSendBody (Some "alice") (Some "bob") (Some (10 ^ 21)) in
  status (fst (run (send part_000 body 3) (alice_at (10 ^ 21)))) = 400
  /\ status (fst (run (send blockchain_js body 3) (alice_at (10 ^ 21)))) = 200
  /\ status (fst (run (send part_001 body 3) (alice_at (10 ^ 21)))) = 200.
Proof.
  cbv zeta. repeat split; reflexivity.
Qed.

(** ** The transactions of an address, in general *)

(** X13.  The query for an address is answered 200 exactly when the log
    holds a transfer that the address sent or received; the answer then
    lists those transfers, all of them and no other, in the order of the
    log, and is never an empty list.  Otherwise the answer is 404.  The
    query changes nothing. *)
Theorem query_lists_the_transfers_of_the_address
  (src : Source) (h : Async Response) (X : string) (now0 : Z) (db : Db) :
  route src (GetTransactions X) now0 = Some h ->
  let involved := filter (fun t => String.eqb (sender t) X || String.eqb (receiver t) X)
                         (transactions db) in
  snd (run h db) = db
  /\ (involved = [] ->
      fst (run h db) = status_json 404 (Message "No transactions found for this user"))
  /\ (involved <> [] -> fst (run h db) = json (TransactionList involved))
  /\ (forall t, In t involved <->
                In t (transactions db) /\ (sender t = X \/ receiver t = X)).
Proof.
  intros Hroute involved. apply route_getTransactions in Hroute. subst h.
  rewrite getTransactions_run. fold (find_sender_or_receiver X (transactions db)).
  change (find_sender_or_receiver X (transactions db)) with involved.
  cbn [fst snd]. repeat split.
  - intros ->. reflexivity.
  - intros Hne. destruct involved; [now elim Hne | reflexivity].
  - unfold involved in H. apply filter_In in H. tauto.
  - unfold involved in H. apply filter_In in H. destruct H as [_ H].
    apply orb_true_iff in H. rewrite !String.eqb_eq in H. exact H.
  - intros [Hin Hor]. apply filter_In. split; [exact Hin|].
    apply orb_true_iff. now rewrite !String.eqb_eq.
Qed.

Lemma query_lists_the_transfers_of_the_address_witness :
  fst (run (Blockchain.getTransactions "bob")
         (snd (run (send blockchain_js
                      (mkSendBody (Some "alice") (Some "bob") (Some 40)) 3)
                   alice_bob)))
  = json (TransactionList [mkTransaction "alice" "bob" 40 3]).
Proof.
  destruct (query_lists_the_transfers_of_the_address blockchain_js
              (Blockchain.getTransactions "bob") "bob" 0
              (snd (run (send blockchain_js
                           (mkSendBody (Some "alice") (Some "bob") (Some 40)) 3)
                        alice_bob)) eq_refl) as (_ & _ & H & _).
  apply H. discriminate.
Defined.

(** ** More on concurrent handlers *)

Lemma send_getBalance (s r : string) (a n : Z) (x : string) (db : Db) :
  s <> r ->
  serializable (send_core s r a n) (Blockchain.getBalance x) db.
Proof.
  intros Hsr o. unfold serial, serial_rev, send_core, Blockchain.getBalance.
  assert (Hrs : r <> s) by congruence.
  apply String.eqb_neq in Hsr, Hrs.
  interleave.
  destruct (String.eqb_spec x s) as [->|Hxs];
    [|destruct (String.eqb_spec x r) as [->|Hxr]];
    unfold incremented; rewrite ?String.eqb_refl, ?Hsr, ?Hrs.
  - destruct (findOne s (users db)) as [us|] eqn:Fs;
      destruct (findOne r (users db)) as [ur|] eqn:Fr;
      interleave; rewrite ?Fs, ?Fr; interleave;
      try destruct (balance us <? a);
      interleave; rewrite ?Fs, ?Fr; interleave;
      unfold incremented; rewrite ?String.eqb_refl, ?Hsr, ?Hrs;
      cbn [option_map balance];
      serial_or_reverse.
  - destruct (findOne s (users db)) as [us|] eqn:Fs;
      destruct (findOne r (users db)) as [ur|] eqn:Fr;
      interleave; rewrite ?Fs, ?Fr; interleave;
      try destruct (balance us <? a);
      interleave; rewrite ?Fs, ?Fr; interleave;
      unfold incremented; rewrite ?String.eqb_refl, ?Hsr, ?Hrs;
      cbn [option_map balance];
      serial_or_reverse.
  - apply String.eqb_neq in Hxs, Hxr.
    destruct (findOne s (users db)) as [us|] eqn:Fs;
      destruct (findOne r (users db)) as [ur|] eqn:Fr;
      destruct (findOne x (users db)) as [ux|] eqn:Fx;
      interleave; rewrite ?Fs, ?Fr, ?Fx; interleave;
      try destruct (balance us <? a);
      interleave; rewrite ?Fs, ?Fr, ?Fx; interleave;
      unfold incremented; rewrite ?Hxs, ?Hxr;
      cbn [option_map balance];
      serial_or_reverse.
Qed.

Lemma send_getTransactions (s r : string) (a n : Z) (x : string) (db : Db) :
  serializable (send_core s r a n) (Blockchain.getTransactions x) db.
Proof.
  intros o. unfold serial, serial_rev, send_core, Blockchain.getTransactions.
  destruct (findOne s (users db)) as [us|] eqn:Fs;
    destruct (findOne r (users db)) as [ur|] eqn:Fr;
    try destruct (balance us <? a) eqn:Hlt;
    destruct (find_sender_or_receiver x (transactions db)) as [|t0 l0] eqn:Ft;
    destruct (String.eqb s x) eqn:Esx;
    destruct (String.eqb r x) eqn:Erx;
    settle; serial_or_reverse.
Qed.

Lemma send_register (s r : string) (a n : Z) (x : string) (ib : option Z)
  (n' : Z) (db : Db) :
  serializable (send_core s r a n) (register_core x ib n') db.
Proof.
  intros o. unfold serial, serial_rev, send_core, register_core.
  destruct (String.eqb_spec x s) as [->|Hxs];
    [destruct (String.eqb_spec s r) as [->|Hsr]
    |destruct (String.eqb_spec x r) as [->|Hxr]];
    repeat match goal with
           | H : ?p <> ?q |- _ => apply String.eqb_neq in H
           end.
  - destruct (findOne r (users db)) as [ur|] eqn:Fr;
      split_checks; serial_or_reverse.
  - assert (Hrs : String.eqb r s = false) by now rewrite String.eqb_sym.
    destruct (findOne s (users db)) as [us|] eqn:Fs;
      destruct (findOne r (users db)) as [ur|] eqn:Fr;
      split_checks; serial_or_reverse.
  - assert (Hsr : String.eqb s r = false) by now rewrite String.eqb_sym.
    destruct (findOne s (users db)) as [us|] eqn:Fs;
      destruct (findOne r (users db)) as [ur|] eqn:Fr;
      split_checks; serial_or_reverse.
  - assert (Hsx : String.eqb s x = false) by now rewrite String.eqb_sym.
    assert (Hrx : String.eqb r x = false) by now rewrite String.eqb_sym.
    destruct (findOne s (users db)) as [us|] eqn:Fs;
      destruct (findOne r (users db)) as [ur|] eqn:Fr;
      destruct (findOne x (users db)) as [ux|] eqn:Fx;
      split_checks; serial_or_reverse.
Qed.

Lemma interleavings_swap {A B : Type} (p : Async A) (q : Async B) (db : Db)
  (a : A) (b : B) (d : Db) :
  In (a, b, d) (interleavings p q db) -> In (b, a, d) (interleavings q p db).
Proof.
  revert q db.
  induction p as [a0 | R op k IHp]; intros q db.
  - rewrite interleavings_Return_l, interleavings_Return_r.
    intros [H|[]]. injection H as <- <- <-. now left.
  - revert db. induction q as [b0 | R' op' k' IHq]; intros db.
    + rewrite interleavings_Return_l, interleavings_Return_r.
      intros [H|[]]. injection H as <- <- <-. now left.
    + rewrite !interleavings_Await. intros H.
      apply in_app_or in H. apply in_or_app. destruct H as [H|H].
      * right. now apply IHp.
      * left. now apply IHq.
Qed.

Lemma serializable_sym {A B : Type} (p : Async A) (q : Async B) (db : Db) :
  serializable p q db -> serializable q p db.
Proof.
  intros H [[b a] d] Hin. apply interleavings_swap in Hin.
  unfold serializable, serial, serial_rev in *.
  destruct (H _ Hin) as [E|E]; [right | left]; revert E.
  - destruct (run p db) as [a1 db1]. destruct (run q db1) as [b1 db2].
    intros E. now injection E as <- <- <-.
  - destruct (run q db) as [b1 db1]. destruct (run p db1) as [a1 db2].
    intros E. now injection E as <- <- <-.
Qed.

(** X14.  A transfer between two different accounts, of an amount that is
    a double as every number of a parsed request is, is serializable with
    every single concurrent request that is not a transfer: a registration,
    a balance read, a reward issuance or a transactions query.  However
    their store operations interleave, the two responses and the final store
    are those of one of the two serial orders. *)
Theorem transfer_serializable_with_other_requests
  (src : Source) (body : SendBody) (now : Z)
  (req : Request) (now' : Z) (h : Async Response) (db : Db) :
  send_sender body <> send_receiver body ->
  amount_is_double body ->
  (forall b, req <> PostTransactionsSend b) ->
  route src req now' = Some h ->
  serializable (send src body now) h db.
Proof.
  intros Hsr Hdouble Hreq Hroute.
  destruct (send_core_of_body src body now)
    as [[res ->] | (s & r & a & Es & Er & Ea & ->)];
    [apply serializable_Return_l|].
  assert (Hne : s <> r) by congruence.
  destruct req as [rbody | x | sbody | mbody | x].
  - destruct (register_resolved src rbody now' h Hroute) as [[res ->] | [x ->]];
      [apply serializable_Return_r | apply send_register].
  - assert (h = Blockchain.getBalance x)
      by (destruct src; injection Hroute as <-; reflexivity).
    subst h. now apply send_getBalance.
  - now elim (Hreq sbody).
  - injection Hroute as <-.
    destruct (mine_resolved src mbody now') as [(res & -> & _) | (m & _ & ->)];
      [apply serializable_Return_r |].
    apply serializable_sym, mine_send; [now apply Hdouble|].
    intros [E1 E2]. congruence.
  - apply route_getTransactions in Hroute. subst h. apply send_getTransactions.
Qed.

Lemma transfer_serializable_with_other_requests_witness :
  serializable
    (send blockchain_js (mkSendBody (Some "alice") (Some "bob") (Some 40)) 3)
    (Blockchain.getBalance "bob")
    alice_bob.
Proof.
  apply (transfer_serializable_with_other_requests blockchain_js
           (mkSendBody (Some "alice") (Some "bob") (Some 40)) 3
           (GetBalance "bob") 0 _ alice_bob).
  - discriminate.
  - intros a H. injection H as <-. reflexivity.
  - discriminate.
  - reflexivity.
Defined.



(** ** Registration, once more *)

(** X16.  What a registration answered 201 has done.  The request carried a
    non-empty address that had no account; exactly one account was appended,
    with that address, the initial balance of the request (0 when it carried
    none) and the time of the request; the logs are untouched.  In
    [blockchain.js] the request moreover carried an initial balance other
    than 0: that file never creates an account with balance 0. *)
Theorem registration_201
  (src : Source) (body : RegisterBody) (now : Z) (h : Async Response) (db : Db) :
  route src (PostUsersRegister body) now = Some h ->
  status (fst (run h db)) = 201 ->
  exists a,
    register_address body = Some a /\ a <> ""
    /\ findOne a (users db) = None
    /\ snd (run h db)
       = mkDb (users db ++ [mkUser a (or_zero (register_initialBalance body)) now])
              (transactions db) (blocks db)
    /\ (src = blockchain_js -> or_zero (register_initialBalance body) <> 0).
Proof.
  intros Hroute Hok.
  assert (Hz : src = blockchain_js -> or_zero (register_initialBalance body) <> 0).
  { intros ->. simpl in Hroute. injection Hroute as <-.
    revert Hok. unfold Blockchain.register, or_zero.
    destruct (truthy_string (register_address body));
      [|simpl; discriminate].
    destruct (truthy_number (register_initialBalance body)) as [n|] eqn:En;
      [|simpl; discriminate].
    intros _. apply truthy_number_Some in En. tauto. }
  destruct (route_register_outcome src body now h db Hroute)
    as [res Hres | a Ha Hne Fa newUser].
  - simpl in Hok. rewrite Hres in Hok. discriminate.
  - exists a. repeat split; assumption.
Qed.

Lemma registration_201_witness :
  exists a,
    Some "carol" = Some a /\ a <> ""
    /\ findOne a (users alice_bob) = None
    /\ snd (run (Blockchain.register (mkRegisterBody (Some "carol") (Some 5)) 9)
              alice_bob)
       = mkDb (users alice_bob ++ [mkUser a 5 9]) [] []
    /\ (blockchain_js = blockchain_js -> 5 <> 0).
Proof.
  apply (registration_201 blockchain_js (mkRegisterBody (Some "carol") (Some 5))
           9 _ alice_bob); reflexivity.
Defined.

Lemma Validated_register_default_balance_witness :
  run (Validated.register (mkRegisterBody (Some "carol") None) 9) alice_bob
  = (status_json 201
       (MessageUser "User registered successfully" (mkUser "carol" 0 9)),
     mkDb (users alice_bob ++ [mkUser "carol" 0 9]) [] []).
Proof.
  apply (Validated_register_default_balance "carol" 9 alice_bob);
    [discriminate | reflexivity].
Defined.
